(** * Spectyra NLI service: a shallow embedding of [infra/nli-service/main.py]

    The service loads one MNLI checkpoint at start-up, then answers
    [POST /nli] (classification of premise/hypothesis pairs, in batches),
    [GET /health] and [GET /].  The Python module keeps the model, the
    tokenizer and the label map in three module-level globals; here they are
    the fields of [Globals], threaded explicitly.  Exceptions are values of
    [exn]; the calls into the tokenizer and the network are recorded in a
    trace, so that "no compute happened" is a statement about a value.

    Conventions.
    - A Python [str] is a [string]; one character is one element.
    - A Python [int] is a [Z]; list positions are [nat].
    - A probability is the exact rational value ([Q]) of the finite float
      held by the tensor; [float(...)] does not change that value.
    - [transformers] and [torch] are not part of the repository: they are the
      fields of the class [Backend]. *)

From Stdlib Require Import ZArith QArith Qabs Lia String Ascii List.
From stdpp Require Import base option list gmap strings.

Local Open Scope string_scope.
Local Open Scope list_scope.
Local Open Scope Z_scope.

(** ** Python built-ins used by the module *)

Module Py.

(** [c.lower()] for one character: the ASCII capitals move to lower
    case, every other character stays.  (No character outside ASCII lower-cases
    to one of the letters d, e, b, r, t, a.) *)
Definition lower_char (c : ascii) : ascii :=
  let n := N_of_ascii c in
  if ((65 <=? n) && (n <=? 90))%N then ascii_of_N (n + 32) else c.

(** [s.lower()] *)
Fixpoint lower (s : string) : string :=
  match s with
  | EmptyString => EmptyString
  | String c s' => String (lower_char c) (lower s')
  end.

(** [s.startswith(p)] *)
Fixpoint startswith (p s : string) : bool :=
  match p, s with
  | EmptyString, _ => true
  | String _ _, EmptyString => false
  | String a p', String b s' => if Ascii.eqb a b then startswith p' s' else false
  end.

(** [needle in hay] on strings: [needle] occurs as a contiguous substring. *)
Fixpoint contains (needle hay : string) : bool :=
  startswith needle hay ||
  match hay with
  | EmptyString => false
  | String _ hay' => contains needle hay'
  end.

(** Clamping of one slice bound against a sequence of length [n]: a negative
    bound counts from the end, and everything is cut to [0..n]. *)
Definition clamp (n x : Z) : Z :=
  if x <? 0 then Z.max (x + n) 0 else Z.min x n.

(** [l[lo:hi]] (step 1). *)
Definition slice {A} (l : list A) (lo hi : Z) : list A :=
  let n := Z.of_nat (length l) in
  let lo' := clamp n lo in
  let hi' := clamp n hi in
  take (Z.to_nat (hi' - lo')) (drop (Z.to_nat lo') l).

(** [s[:hi]] on a string. *)
Definition str_prefix (s : string) (hi : Z) : string :=
  string_of_list_ascii (slice (list_ascii_of_string s) 0 hi).

(** [range(start, stop, step)] as the list of its elements; [None] is the
    [ValueError] of a zero step. *)
Definition range (start stop step : Z) : option (list Z) :=
  if step =? 0 then None
  else
    let len :=
      if 0 <? step
      then (if start <? stop then (stop - start - 1) / step + 1 else 0)
      else (if stop <? start then (start - stop - 1) / (- step) + 1 else 0) in
    Some (map (fun k => start + Z.of_nat k * step) (seq 0 (Z.to_nat len))).

End Py.

(** ** Configuration (module-level constants read from the environment) *)

Record Config := {
  NLI_MODEL : string;
  DEVICE : string;
  MAX_LENGTH : Z;
  BATCH_SIZE : Z
}.

(** The values used when the environment sets nothing. *)
Definition default_config : Config := {|
  NLI_MODEL := "microsoft/deberta-v3-large-mnli";
  DEVICE := "cpu";
  MAX_LENGTH := 256;
  BATCH_SIZE := 16
|}.

(** ** Label maps *)

Definition LABEL_MAP : gmap nat string :=
  <[0%nat := "entailment"]> (<[1%nat := "neutral"]> (<[2%nat := "contradiction"]> ∅)).

Definition DEBERTA_LABEL_MAP : gmap nat string :=
  <[0%nat := "contradiction"]> (<[1%nat := "neutral"]> (<[2%nat := "entailment"]> ∅)).

(** The branch of [load_model] that picks the map. *)
Definition select_label_map (nli_model : string) : gmap nat string :=
  if Py.contains "deberta" (Py.lower nli_model)
  then DEBERTA_LABEL_MAP
  else LABEL_MAP.

(** The three canonical labels. *)
Definition canonical_labels : gset string :=
  {[ "entailment"; "neutral"; "contradiction" ]}.

(** ** Request and response models (the pydantic classes) *)

Record NliPair := { premise : string; hypothesis : string }.

(** The field [model] of the request is [requested_model] here, the name
    [model] being taken by the global. *)
Record NliRequest := {
  pairs : list NliPair;
  requested_model : option string
}.

Record NliResultItem := {
  label : string;
  confidence : Q;
  scores : option (gmap string Q)
}.

Record NliResponse := { results : list NliResultItem }.

(** The field [model] of the health response is [health_model] here. *)
Record HealthResponse := {
  status : string;
  health_model : string;
  device : string
}.

(** ** Exceptions *)

Inductive exn :=
| HTTPException (status_code : Z) (detail : string)
| OSError          (* a checkpoint that cannot be resolved or loaded *)
| TypeError        (* a global that is still [None] is called or measured *)
| ValueError       (* [range] with a zero step *)
| IndexError       (* a tensor position that does not exist *)
| KeyError         (* a class index absent from the label map *)
| RuntimeError.    (* a failure inside torch, such as no memory left on the device *)

(** ** The libraries the module calls

    A network loaded by [from_pretrained] sits on the processor and is moved
    by [.cuda()]; [.eval()] switches it to inference mode.  Both facts are kept
    next to the weights. *)

Record TorchModule (W : Type) := {
  weights : W;
  on_cuda : bool;
  eval_mode : bool
}.
Arguments weights {W} _.
Arguments on_cuda {W} _.
Arguments eval_mode {W} _.

(** A two-dimensional tensor of probabilities or logits: one row per item of
    the batch, one column per class. *)
Abbreviation Tensor := (list (list Q)).

Class Backend := {
  Tokenizer : Type;
  Weights : Type;
  Encoding : Type;
  (** [AutoTokenizer.from_pretrained]; [None] when it raises. *)
  AutoTokenizer_from_pretrained : string -> option Tokenizer;
  (** [AutoModelForSequenceClassification.from_pretrained]; [None] when it raises. *)
  AutoModel_from_pretrained : string -> option Weights;
  (** The exception each of the two raises when it does. *)
  tokenizer_load_error : string -> exn;
  model_load_error : string -> exn;
  (** [torch.cuda.is_available()] *)
  cuda_is_available : bool;
  (** [model.cuda()]: the exception it raises, [None] when the network is moved. *)
  module_cuda_error : Weights -> option exn;
  (** [model.eval()]: the exception it raises, [None] when the mode is switched. *)
  module_eval_error : Weights -> option exn;
  (** [tokenizer(premises, hypotheses, padding=True, truncation=True,
      max_length=..., return_tensors="pt")] *)
  tokenizer_call : Tokenizer -> list string -> list string -> Z -> Encoding;
  (** [{k: v.cuda() for k, v in inputs.items()}] *)
  inputs_cuda : Encoding -> Encoding;
  (** [model(inputs).logits], the inputs passed as keyword arguments *)
  model_logits : TorchModule Weights -> Encoding -> Tensor;
  (** [torch.softmax(logits, dim=-1)] *)
  torch_softmax : Tensor -> Tensor
}.

(** [torch.argmax] of a one-dimensional tensor: the position of the first
    maximal entry.  [argmax_from best_i best i row] scans [row], whose first
    element has position [i], with the best entry so far at [best_i]. *)
Fixpoint argmax_from (best_i : nat) (best : Q) (i : nat) (row : list Q) : nat :=
  match row with
  | [] => best_i
  | x :: row' =>
      if Qle_bool x best
      then argmax_from best_i best (S i) row'
      else argmax_from i x (S i) row'
  end.

Definition argmax (row : list Q) : option nat :=
  match row with
  | [] => None
  | x :: row' => Some (argmax_from 0%nat x 1%nat row')
  end.

(** ** Effects: exceptions and the trace of library calls *)

Inductive Event `{Backend} :=
| TokenizerCall (premises hypotheses : list string)
| ModelCall (inputs : Encoding).

(** A computation yields the calls it made and then a value or the exception
    that stopped it. *)
Definition M `{Backend} (A : Type) : Type := (list Event * (exn + A))%type.

Definition ret `{Backend} {A} (a : A) : M A := ([], inr a).
Definition raise `{Backend} {A} (e : exn) : M A := ([], inl e).
Definition emit `{Backend} (ev : Event) : M unit := ([ev], inr tt).

Definition bind `{Backend} {A B} (m : M A) (f : A -> M B) : M B :=
  match m with
  | (t, inl e) => (t, inl e)
  | (t, inr a) => let '(t', r) := f a in (t ++ t', r)
  end.

Notation "x <- m ;; k" := (bind m (fun x => k))
  (at level 100, m at next level, right associativity).
Notation "m ;;; k" := (bind m (fun _ => k))
  (at level 100, right associativity).

(** Reading something that may be absent, raising [e] when it is. *)
Definition get_or `{Backend} {A} (e : exn) (o : option A) : M A :=
  match o with
  | Some a => ret a
  | None => raise e
  end.

(** A step that makes no call. *)
Definition lift `{Backend} {A} (r : exn + A) : M A := ([], r).

Definition trace `{Backend} {A} (m : M A) : list Event := fst m.
Definition outcome `{Backend} {A} (m : M A) : exn + A := snd m.

(** The status line the framework sends: 200 for a returned body, the status
    of an [HTTPException], 500 for any other exception. *)
Definition http_status `{Backend} {A} (m : M A) : Z :=
  match outcome m with
  | inr _ => 200
  | inl (HTTPException code _) => code
  | inl _ => 500
  end.

(** ** The module's globals *)

Record Globals `{Backend} := {
  model : option (TorchModule Weights);
  tokenizer : option Tokenizer;
  label_map : option (gmap nat string)
}.

(** The globals at import time: [model = None], [tokenizer = None],
    [label_map = None]. *)
Definition initial_globals `{Backend} : Globals :=
  {| model := None; tokenizer := None; label_map := None |}.

Section Service.

Context `{B : Backend}.
Variable cfg : Config.

(** [DEVICE == "cuda" and torch.cuda.is_available()] *)
Definition use_cuda : bool :=
  bool_decide (DEVICE cfg = "cuda") && cuda_is_available.

(** [load_model()]: the globals are assigned one after the other, so an
    exception leaves the earlier assignments in place.  [tokenizer] is assigned
    first; [model] is assigned as soon as the checkpoint is loaded, before it is
    moved and switched to inference mode; [label_map] is assigned last. *)
Definition load_model (g : Globals) : Globals * (exn + unit) :=
  match AutoTokenizer_from_pretrained (NLI_MODEL cfg) with
  | None => (g, inl (tokenizer_load_error (NLI_MODEL cfg)))
  | Some tok =>
      let g1 := {| model := model g; tokenizer := Some tok; label_map := label_map g |} in
      match AutoModel_from_pretrained (NLI_MODEL cfg) with
      | None => (g1, inl (model_load_error (NLI_MODEL cfg)))
      | Some w =>
          let m0 := {| weights := w; on_cuda := false; eval_mode := false |} in
          let g2 := {| model := Some m0; tokenizer := Some tok; label_map := label_map g |} in
          match (if use_cuda then module_cuda_error w else None) with
          | Some e => (g2, inl e)
          | None =>
              let m1 := if use_cuda
                        then {| weights := weights m0; on_cuda := true;
                                eval_mode := eval_mode m0 |}
                        else m0 in
              let g3 := {| model := Some m1; tokenizer := Some tok;
                           label_map := label_map g |} in
              match module_eval_error w with
              | Some e => (g3, inl e)
              | None =>
                  let m2 := {| weights := weights m1; on_cuda := on_cuda m1;
                               eval_mode := true |} in
                  ({| model := Some m2;
                      tokenizer := Some tok;
                      label_map := Some (select_label_map (NLI_MODEL cfg)) |},
                   inr tt)
              end
          end
      end
  end.

(** The comprehension
    [{label_map[i]: float(probs[idx][i]) for i in range(len(label_map))}],
    for the class indices [classes] in turn: the key is evaluated before the
    value, and a later key overwrites an earlier one. *)
Fixpoint prob_dict_from (lm : gmap nat string) (probs : Tensor) (idx : nat)
    (classes : list nat) (acc : gmap string Q) : exn + gmap string Q :=
  match classes with
  | [] => inr acc
  | i :: classes' =>
      match lm !! i with
      | None => inl KeyError
      | Some l =>
          match probs !! idx with
          | None => inl IndexError
          | Some row =>
              match row !! i with
              | None => inl IndexError
              | Some p => prob_dict_from lm probs idx classes' (<[l := p]> acc)
              end
          end
      end
  end.

(** One turn of the loop [for idx in range(len(pairs))] of [classify_batch]. *)
Definition result_item (label_map : option (gmap nat string)) (probs : Tensor)
    (idx : nat) : exn + NliResultItem :=
  match label_map with
  | None => inl TypeError
  | Some lm =>
      match prob_dict_from lm probs idx (seq 0 (size lm)) ∅ with
      | inl e => inl e
      | inr prob_dict =>
          match probs !! idx with
          | None => inl IndexError
          | Some row =>
              match argmax row with
              | None => inl IndexError
              | Some best_idx =>
                  match lm !! best_idx with
                  | None => inl KeyError
                  | Some best_label =>
                      match row !! best_idx with
                      | None => inl IndexError
                      | Some best_confidence =>
                          inr {| label := best_label;
                                 confidence := best_confidence;
                                 scores := Some prob_dict |}
                      end
                  end
              end
          end
      end
  end.

(** The loop itself, with its accumulator [results]. *)
Fixpoint collect_items (label_map : option (gmap nat string)) (probs : Tensor)
    (idxs : list nat) (results : list NliResultItem) : exn + list NliResultItem :=
  match idxs with
  | [] => inr results
  | idx :: idxs' =>
      match result_item label_map probs idx with
      | inl e => inl e
      | inr item => collect_items label_map probs idxs' (results ++ [item])
      end
  end.

(** The probabilities [classify_batch] computes for a batch, given the loaded
    tokenizer and network. *)
Definition batch_inputs (tok : Tokenizer) (batch : list NliPair) : Encoding :=
  let premises := map (fun p => Py.str_prefix (premise p) (MAX_LENGTH cfg)) batch in
  let hypotheses := map (fun p => Py.str_prefix (hypothesis p) (MAX_LENGTH cfg)) batch in
  let inputs := tokenizer_call tok premises hypotheses (MAX_LENGTH cfg) in
  if use_cuda then inputs_cuda inputs else inputs.

Definition batch_probs (tok : Tokenizer) (mdl : TorchModule Weights)
    (batch : list NliPair) : Tensor :=
  torch_softmax (model_logits mdl (batch_inputs tok batch)).

(** [classify_batch(pairs)] *)
Definition classify_batch (g : Globals) (batch : list NliPair) : M (list NliResultItem) :=
  let premises := map (fun p => Py.str_prefix (premise p) (MAX_LENGTH cfg)) batch in
  let hypotheses := map (fun p => Py.str_prefix (hypothesis p) (MAX_LENGTH cfg)) batch in
  tok <- get_or TypeError (tokenizer g) ;;
  emit (TokenizerCall premises hypotheses) ;;;
  let inputs := batch_inputs tok batch in
  mdl <- get_or TypeError (model g) ;;
  emit (ModelCall inputs) ;;;
  let probs := batch_probs tok mdl batch in
  lift (collect_items (label_map g) probs (seq 0 (length batch)) []).

(** The loop [for i in range(0, len(request.pairs), BATCH_SIZE)] of
    [classify_nli], over the start positions [starts]. *)
Fixpoint classify_batches (g : Globals) (all : list NliPair) (starts : list Z)
    (results : list NliResultItem) : M (list NliResultItem) :=
  match starts with
  | [] => ret results
  | i :: starts' =>
      let batch := Py.slice all i (i + BATCH_SIZE cfg) in
      batch_results <- classify_batch g batch ;;
      classify_batches g all starts' (results ++ batch_results)
  end.

(** [POST /nli] *)
Definition classify_nli (g : Globals) (request : NliRequest) : M NliResponse :=
  match model g, tokenizer g with
  | Some _, Some _ =>
      match pairs request with
      | [] => ret {| results := [] |}
      | _ :: _ =>
          if 100 <? Z.of_nat (length (pairs request))
          then raise (HTTPException 400 "Maximum 100 pairs per request")
          else
            starts <- get_or ValueError
                        (Py.range 0 (Z.of_nat (length (pairs request))) (BATCH_SIZE cfg)) ;;
            results <- classify_batches g (pairs request) starts [] ;;
            ret {| results := results |}
      end
  | _, _ => raise (HTTPException 503 "Model not loaded")
  end.

(** [GET /health] *)
Definition health_check (g : Globals) : M HealthResponse :=
  match model g with
  | None => raise (HTTPException 503 "Model not loaded")
  | Some _ =>
      ret {| status := "healthy";
             health_model := NLI_MODEL cfg;
             device := DEVICE cfg |}
  end.

End Service.

(** ** The running process

    [lifespan] calls [load_model] before the first request is served; the
    handlers only read the globals. *)

(** The body of [GET /], without its constant table of endpoints. *)
Record RootInfo := {
  service : string;
  root_model : string;
  root_device : string
}.

Inductive HttpRequest :=
| GET_health
| GET_root
| POST_nli (request : NliRequest).

Inductive Body :=
| HealthBody (h : HealthResponse)
| RootBody (r : RootInfo)
| NliBody (r : NliResponse).

Section Process.

Context `{B : Backend}.
Variable cfg : Config.

(** [GET /] *)
Definition root : M RootInfo :=
  ret {| service := "Spectyra NLI Service";
         root_model := NLI_MODEL cfg;
         root_device := DEVICE cfg |}.

(** Routing of one request to its handler. *)
Definition handle (g : Globals) (req : HttpRequest) : M Body :=
  match req with
  | GET_health => h <- health_check cfg g ;; ret (HealthBody h)
  | GET_root => r <- root ;; ret (RootBody r)
  | POST_nli request => r <- classify_nli cfg g request ;; ret (NliBody r)
  end.

(** The requests of one process in the order they are served, each with the
    globals it leaves behind. *)
Fixpoint serve (g : Globals) (reqs : list HttpRequest) : Globals * list (M Body) :=
  match reqs with
  | [] => (g, [])
  | req :: reqs' =>
      let response := handle g req in
      let '(g', responses) := serve g reqs' in
      (g', response :: responses)
  end.

(** [lifespan]: start-up, then the requests.  A failed start-up serves
    nothing. *)
Definition lifespan (reqs : list HttpRequest) : exn + Globals * list (M Body) :=
  match load_model cfg initial_globals with
  | (_, inl e) => inl e
  | (g, inr _) => inr (serve g reqs)
  end.

End Process.

(** ** A small backend to run the definitions on

    The tokenizer pairs the texts up; the network scores a pair by the lengths
    of its two texts; the soft-max stand-in gives 7/10 to the largest logit. *)

Module Toy.

Definition logits_of (e : string * string) : list Q :=
  [ inject_Z (Z.of_nat (String.length (fst e)));
    inject_Z (Z.of_nat (String.length (snd e)));
    3%Q ].

Definition softmax_row (row : list Q) : list Q :=
  match argmax row with
  | Some 0%nat => [7 # 10; 2 # 10; 1 # 10]%Q
  | Some 1%nat => [2 # 10; 7 # 10; 1 # 10]%Q
  | _ => [1 # 10; 2 # 10; 7 # 10]%Q
  end.

#[export] Instance backend : Backend := {|
  Tokenizer := unit;
  Weights := unit;
  Encoding := list (string * string);
  AutoTokenizer_from_pretrained := fun _ => Some tt;
  AutoModel_from_pretrained := fun _ => Some tt;
  tokenizer_load_error := fun _ => OSError;
  model_load_error := fun _ => OSError;
  cuda_is_available := false;
  module_cuda_error := fun _ => None;
  module_eval_error := fun _ => None;
  tokenizer_call := fun _ premises hypotheses _ => zip premises hypotheses;
  inputs_cuda := fun e => e;
  model_logits := fun _ e => map logits_of e;
  torch_softmax := fun t => map softmax_row t
|}.

(** The globals before start-up. *)
Definition fresh : Globals := initial_globals.

(** The globals after a successful start-up with the default configuration. *)
Definition started : Globals := fst (load_model default_config fresh).

(** A configuration that asks for the accelerator, which this backend does
    not have. *)
Definition cuda_config : Config := {|
  NLI_MODEL := "microsoft/deberta-v3-large-mnli";
  DEVICE := "cuda";
  MAX_LENGTH := 256;
  BATCH_SIZE := 16
|}.

Definition pair (p h : string) : NliPair := {| premise := p; hypothesis := h |}.

Definition req (ps : list NliPair) : NliRequest :=
  {| pairs := ps; requested_model := None |}.

(** [n] pairs whose premises have 0, 1, 2, ... characters. *)
Definition sample (n : nat) : list NliPair :=
  map (fun k => pair (string_of_list_ascii (replicate k "a"%char)) "bb") (seq 0 n).

(** A request of 101 pairs. *)
Definition too_many : NliRequest := req (replicate 101 (pair "a" "b")).

(** The globals after a start-up that asked for the accelerator. *)
Definition started_cuda : Globals := fst (load_model cuda_config fresh).

(** The results the loaded service returns for a list of pairs. *)
Definition answers (ps : list NliPair) : list NliResultItem :=
  match outcome (classify_nli default_config started (req ps)) with
  | inr r => results r
  | inl _ => []
  end.

(** Three pairs and the result expected for the first of them. *)
Definition three_pairs : list NliPair :=
  [pair "a" "bcd"; pair "hello" "x"; pair "" ""].

Definition first_answer : NliResultItem :=
  {| label := "neutral";
     confidence := 7 # 10;
     scores := Some (<["entailment" := 1 # 10]>
                      (<["neutral" := 7 # 10]>
                        (<["contradiction" := 2 # 10]> ∅))) |}.

(** The row the small backend computes for one pair. *)
Definition row_of (cfg : Config) (p : NliPair) : list Q :=
  softmax_row
    (logits_of (Py.str_prefix (premise p) (MAX_LENGTH cfg),
                Py.str_prefix (hypothesis p) (MAX_LENGTH cfg))).

End Toy.

(** * Vocabulary of the statements *)

(** ** Running a fallible function over a list *)

Fixpoint traverse {E A C} (f : A -> E + C) (l : list A) : E + list C :=
  match l with
  | [] => inr []
  | x :: l' =>
      match f x with
      | inl e => inl e
      | inr y =>
          match traverse f l' with
          | inl e => inl e
          | inr ys => inr (y :: ys)
          end
      end
  end.

(** Post-composition with a prefix, as the accumulators of the loops do. *)
Definition prepend {E C} (acc : list C) (r : E + list C) : E + list C :=
  match r with
  | inl e => inl e
  | inr ys => inr (acc ++ ys)
  end.

(** ** Batches *)

(** The number of batches a list of [n] items is cut into. *)
Definition batch_count (n : nat) (step : Z) : nat :=
  Z.to_nat (if 0 <? Z.of_nat n then (Z.of_nat n - 1) / step + 1 else 0).

(** The [k]-th batch of size [b] of a list. *)
Definition chunk {A} (b : nat) (l : list A) (k : nat) : list A :=
  take b (drop (k * b) l).

(** ** Rows and results *)

(** What one row of probabilities turns into. *)
Definition row_item (label_map : option (gmap nat string)) (row : list Q)
    : exn + NliResultItem :=
  result_item label_map [row] 0%nat.

(** All the rows a request gives rise to, batch after batch. *)
Definition nli_rows `{Backend} (cfg : Config) (tok : Tokenizer)
    (mdl : TorchModule Weights) (all : list NliPair) : Tensor :=
  concat (map (fun k => batch_probs cfg tok mdl
                          (chunk (Z.to_nat (BATCH_SIZE cfg)) all k))
              (seq 0 (batch_count (length all) (BATCH_SIZE cfg)))).

(** ** Label maps and scores *)

(** [lm] sends the class indices 0, 1, 2, and nothing else, to the three
    canonical labels, each label once. *)
Definition label_permutation (lm : gmap nat string) : Prop :=
  size lm = 3%nat /\
  exists l0 l1 l2,
    lm !! 0%nat = Some l0 /\ lm !! 1%nat = Some l1 /\ lm !! 2%nat = Some l2 /\
    l0 ≠ l1 /\ l0 ≠ l2 /\ l1 ≠ l2 /\
    ({[ l0; l1; l2 ]} : gset string) = canonical_labels.

(** The sum of the entries of a row. *)
Definition Qsum (l : list Q) : Q := foldr Qplus 0%Q l.

(** [sum(scores.values())] *)
Definition scores_total (m : gmap string Q) : Q :=
  Qsum (map snd (map_to_list m)).

(** ** The loaded service *)

(** The globals hold a tokenizer, a network and a label map that is one of
    the permutations of the canonical labels. *)
Definition loaded `{Backend} (g : Globals) (tok : Tokenizer)
    (mdl : TorchModule Weights) (lm : gmap nat string) : Prop :=
  tokenizer g = Some tok /\ model g = Some mdl /\ label_map g = Some lm /\
  label_permutation lm.

(** The name of the device a network sits on. *)
Definition active_device {W} (m : TorchModule W) : string :=
  if on_cuda m then "cuda" else "cpu".

(** ** What is asked of the tokenizer and the network *)

(** The tensor of probabilities has one row per item of the batch. *)
Definition one_row_per_item `{Backend} (cfg : Config) (tok : Tokenizer)
    (mdl : TorchModule Weights) : Prop :=
  forall batch, batch ≠ [] -> length (batch_probs cfg tok mdl batch) = length batch.

(** The checkpoint is a three-way classifier: every row has three entries. *)
Definition three_classes `{Backend} (cfg : Config) (tok : Tokenizer)
    (mdl : TorchModule Weights) : Prop :=
  forall batch row, batch ≠ [] -> row ∈ batch_probs cfg tok mdl batch -> length row = 3%nat.


(** The row of an item does not depend on the other items of its batch. *)
Definition itemwise `{Backend} (cfg : Config) (tok : Tokenizer)
    (mdl : TorchModule Weights) : Prop :=
  forall b1 b2, b1 ≠ [] -> b2 ≠ [] ->
    batch_probs cfg tok mdl (b1 ++ b2)
    = batch_probs cfg tok mdl b1 ++ batch_probs cfg tok mdl b2.

(** ** Vocabulary of the further properties *)

(** The exceptions that carry a status of their own. *)
Definition is_http (e : exn) : Prop :=
  match e with
  | HTTPException _ _ => True
  | _ => False
  end.

(** The two calls [classify_batch] makes for one batch. *)
Definition batch_events `{Backend} (cfg : Config) (tok : Tokenizer)
    (batch : list NliPair) : list Event :=
  [TokenizerCall
     (map (fun p => Py.str_prefix (premise p) (MAX_LENGTH cfg)) batch)
     (map (fun p => Py.str_prefix (hypothesis p) (MAX_LENGTH cfg)) batch);
   ModelCall (batch_inputs cfg tok batch)].

(** A pair cut to the first [MAX_LENGTH] characters of each text. *)
Definition truncated (cfg : Config) (p : NliPair) : NliPair :=
  {| premise := Py.str_prefix (premise p) (MAX_LENGTH cfg);
     hypothesis := Py.str_prefix (hypothesis p) (MAX_LENGTH cfg) |}.

(** Entailment and contradiction exchanged, every other label kept. *)
Definition swap_label (l : string) : string :=
  if String.eqb l "entailment" then "contradiction"
  else if String.eqb l "contradiction" then "entailment"
  else l.

(** The outcomes of consecutive batches put together as the loop of
    [classify_nli] does: the first exception, or all the results in order. *)
Fixpoint gather {E C} (rs : list (E + list C)) : E + list C :=
  match rs with
  | [] => inr []
  | inl e :: _ => inl e
  | inr x :: rs' => prepend x (gather rs')
  end.

(** The default configuration with a batch size that is not positive. *)
Module Misconfigured.

Definition zero_step : Config := {|
  NLI_MODEL := "microsoft/deberta-v3-large-mnli";
  DEVICE := "cpu";
  MAX_LENGTH := 256;
  BATCH_SIZE := 0
|}.

Definition negative_step : Config := {|
  NLI_MODEL := "microsoft/deberta-v3-large-mnli";
  DEVICE := "cpu";
  MAX_LENGTH := 256;
  BATCH_SIZE := -16
|}.

End Misconfigured.

(** A backend as the small one, except that no checkpoint can be loaded. *)
Module Offline.

#[export] Instance backend : Backend := {|
  Tokenizer := unit;
  Weights := unit;
  Encoding := list (string * string);
  AutoTokenizer_from_pretrained := fun _ => Some tt;
  AutoModel_from_pretrained := fun _ => None;
  tokenizer_load_error := fun _ => OSError;
  model_load_error := fun _ => ValueError;
  cuda_is_available := false;
  module_cuda_error := fun _ => None;
  module_eval_error := fun _ => None;
  tokenizer_call := fun _ premises hypotheses _ => zip premises hypotheses;
  inputs_cuda := fun e => e;
  model_logits := fun _ e => map Toy.logits_of e;
  torch_softmax := fun t => map Toy.softmax_row t
|}.

Definition fresh : Globals := initial_globals.

End Offline.

(** A backend as the small one, with an accelerator that has no room for the
    network: [model.cuda()] raises. *)
Module NoMemory.

#[export] Instance backend : Backend := {|
  Tokenizer := unit;
  Weights := unit;
  Encoding := list (string * string);
  AutoTokenizer_from_pretrained := fun _ => Some tt;
  AutoModel_from_pretrained := fun _ => Some tt;
  tokenizer_load_error := fun _ => OSError;
  model_load_error := fun _ => OSError;
  cuda_is_available := true;
  module_cuda_error := fun _ => Some RuntimeError;
  module_eval_error := fun _ => None;
  tokenizer_call := fun _ premises hypotheses _ => zip premises hypotheses;
  inputs_cuda := fun e => e;
  model_logits := fun _ e => map Toy.logits_of e;
  torch_softmax := fun t => map Toy.softmax_row t
|}.

Definition fresh : Globals := initial_globals.

End NoMemory.

(** A backend whose tokenizer pads every item to the longest premise of its
    batch, as [padding=True] asks, and whose network lets the padding count:
    the third logit of an item is the number of positions it was padded with. *)
Module Padded.

Definition pad_to (premises : list string) : nat :=
  foldr Nat.max 0%nat (map String.length premises).

Definition logits_of (width : nat) (e : string * string) : list Q :=
  [ inject_Z (Z.of_nat (String.length (fst e)));
    inject_Z (Z.of_nat (String.length (snd e)));
    inject_Z (Z.of_nat (width - String.length (fst e))) ].

#[export] Instance backend : Backend := {|
  Tokenizer := unit;
  Weights := unit;
  Encoding := nat * list (string * string);
  AutoTokenizer_from_pretrained := fun _ => Some tt;
  AutoModel_from_pretrained := fun _ => Some tt;
  tokenizer_load_error := fun _ => OSError;
  model_load_error := fun _ => OSError;
  cuda_is_available := false;
  module_cuda_error := fun _ => None;
  module_eval_error := fun _ => None;
  tokenizer_call := fun _ premises hypotheses _ =>
                      (pad_to premises, zip premises hypotheses);
  inputs_cuda := fun e => e;
  model_logits := fun _ e => map (logits_of (fst e)) (snd e);
  torch_softmax := fun t => map Toy.softmax_row t
|}.

Definition fresh : Globals := initial_globals.

Definition started : Globals := fst (load_model default_config fresh).

(** The results for forty pairs sent as one request, and classified as one
    batch. *)
Definition split_answers : list NliResultItem :=
  match outcome (classify_nli default_config started (Toy.req (Toy.sample 40))) with
  | inr r => results r
  | inl _ => []
  end.

Definition whole_answers : list NliResultItem :=
  match outcome (classify_batch default_config started (Toy.sample 40)) with
  | inr rs => rs
  | inl _ => []
  end.

End Padded.

(** A backend as the small one, except that the network has two classes for
    a pair whose premise is empty. *)
Module Faulty.

Definition softmax_row (row : list Q) : list Q :=
  match row with
  | x :: _ => if Qeq_bool x 0 then [1 # 2; 1 # 2]%Q else Toy.softmax_row row
  | [] => []
  end.

#[export] Instance backend : Backend := {|
  Tokenizer := unit;
  Weights := unit;
  Encoding := list (string * string);
  AutoTokenizer_from_pretrained := fun _ => Some tt;
  AutoModel_from_pretrained := fun _ => Some tt;
  tokenizer_load_error := fun _ => OSError;
  model_load_error := fun _ => OSError;
  cuda_is_available := true;
  module_cuda_error := fun _ => None;
  module_eval_error := fun _ => None;
  tokenizer_call := fun _ premises hypotheses _ => zip premises hypotheses;
  inputs_cuda := fun e => e;
  model_logits := fun _ e => map Toy.logits_of e;
  torch_softmax := fun t => map softmax_row t
|}.

Definition fresh : Globals := initial_globals.

(** Batches of four. *)
Definition config : Config := {|
  NLI_MODEL := "roberta-large-mnli";
  DEVICE := "cuda";
  MAX_LENGTH := 8;
  BATCH_SIZE := 4
|}.

Definition started : Globals := fst (load_model config fresh).

(** Ten pairs, the sixth with an empty premise. *)
Definition pairs10 : list NliPair :=
  map (fun k => Toy.pair (string_of_list_ascii (replicate (Nat.sub 5 k) "a"%char)) "bb")
      (seq 0 5)
  ++ map (fun k => Toy.pair (string_of_list_ascii (replicate k "a"%char)) "bb")
      (seq 0 5).

End Faulty.

(** * Properties *)

(** ** The definitions at work *)

Example range_40_by_16 : Py.range 0 40 16 = Some [0; 16; 32].
Proof. reflexivity. Qed.

Example range_zero_step : Py.range 0 40 0 = None.
Proof. reflexivity. Qed.

Example range_negative : Py.range 0 40 (-16) = Some [].
Proof. reflexivity. Qed.

Example slice_past_the_end : Py.slice [1; 2; 3; 4; 5] 3 19 = [4; 5].
Proof. reflexivity. Qed.

Example slice_negative_bound : Py.str_prefix "premise" (-3) = "prem".
Proof. reflexivity. Qed.

Example lower_identifier :
  Py.lower "Microsoft/DeBERTa-v3" = "microsoft/deberta-v3".
Proof. reflexivity. Qed.

Example select_roberta : select_label_map "roberta-large-mnli" = LABEL_MAP.
Proof. reflexivity. Qed.

Example select_deberta_any_case :
  select_label_map "MoritzLaurer/DeBERTa-v3-base-mnli" = DEBERTA_LABEL_MAP.
Proof. reflexivity. Qed.

Example argmax_first_of_ties : argmax [1 # 4; 3 # 8; 3 # 8]%Q = Some 1%nat.
Proof. reflexivity. Qed.

(** Forty pairs go through the tokenizer and the network three times. *)
Example forty_pairs_three_batches :
  length (trace (classify_nli default_config Toy.started (Toy.req (Toy.sample 40))))
  = 6%nat /\
  length (Toy.answers (Toy.sample 40)) = 40%nat.
Proof. split; reflexivity. Qed.

Example first_answer_computed :
  head (Toy.answers Toy.three_pairs) = Some Toy.first_answer.
Proof. reflexivity. Qed.

(** ** Strings *)

Module PyFacts.

Lemma app_String (a : ascii) (s t : string) :
  (String a s ++ t)%string = String a (s ++ t)%string.
Proof. reflexivity. Qed.

Lemma app_Empty (t : string) : (EmptyString ++ t)%string = t.
Proof. reflexivity. Qed.

Lemma startswith_spec (p s : string) :
  Py.startswith p s = true <-> exists post, s = (p ++ post)%string.
Proof.
  revert s. induction p as [|a p IH]; intros s; simpl.
  - split; [intros _; by exists s | done].
  - destruct s as [|b s]; simpl.
    + split; [done | intros [post H]; by rewrite app_String in H].
    + destruct (Ascii.eqb_spec a b) as [->|Hne].
      * rewrite IH. split; intros [post H]; exists post;
          rewrite app_String in *; congruence.
      * split; [done | intros [post H]; rewrite app_String in H; congruence].
Qed.

Lemma contains_spec (needle hay : string) :
  Py.contains needle hay = true <->
  exists pre post, hay = (pre ++ needle ++ post)%string.
Proof.
  induction hay as [|c hay IH]; simpl.
  - rewrite orb_false_r, startswith_spec. split.
    + intros [post H]. by exists EmptyString, post.
    + intros [pre [post H]]. destruct pre as [|d pre].
      * by exists post.
      * by rewrite app_String in H.
  - rewrite orb_true_iff, startswith_spec, IH. split.
    + intros [[post H] | [pre [post H]]].
      * by exists EmptyString, post.
      * exists (String c pre), post. by rewrite app_String, H.
    + intros [pre [post H]]. destruct pre as [|d pre].
      * left. by exists post.
      * right. exists pre, post. rewrite app_String in H. congruence.
Qed.

Lemma lower_app (s t : string) :
  Py.lower (s ++ t)%string = (Py.lower s ++ Py.lower t)%string.
Proof.
  induction s as [|c s IH]; [done|].
  rewrite app_String. simpl. by rewrite IH.
Qed.

(** Any way of cutting [lower s] in two comes from a cut of [s]. *)
Lemma lower_split (s u v : string) :
  Py.lower s = (u ++ v)%string ->
  exists s1 s2, s = (s1 ++ s2)%string /\ Py.lower s1 = u /\ Py.lower s2 = v.
Proof.
  revert s. induction u as [|a u IH]; intros s H.
  - by exists EmptyString, s.
  - rewrite app_String in H.
    destruct s as [|c s]; simpl in H; [discriminate|].
    injection H as Ha Hs. destruct (IH _ Hs) as (s1 & s2 & -> & H1 & H2).
    exists (String c s1), s2. simpl. by rewrite Ha, H1.
Qed.

(** [needle in s.lower()] says that some stretch of [s] reads [needle] once
    its capitals are lowered. *)
Lemma contains_lower_spec (needle s : string) :
  Py.contains needle (Py.lower s) = true <->
  exists pre mid post,
    s = (pre ++ mid ++ post)%string /\ Py.lower mid = needle.
Proof.
  rewrite contains_spec. split.
  - intros (u & v & H).
    destruct (lower_split _ _ _ H) as (pre & rest & -> & _ & Hrest).
    destruct (lower_split _ _ _ Hrest) as (mid & post & -> & Hmid & _).
    by exists pre, mid, post.
  - intros (pre & mid & post & -> & <-).
    exists (Py.lower pre), (Py.lower post). by rewrite !lower_app.
Qed.

(** ** Slices and ranges *)

Lemma slice_nonneg {A} (l : list A) (lo hi : Z) :
  0 <= lo -> 0 <= hi ->
  Py.slice l lo hi = take (Z.to_nat hi - Z.to_nat lo) (drop (Z.to_nat lo) l).
Proof.
  intros Hlo Hhi. unfold Py.slice, Py.clamp.
  destruct (Z.ltb_spec lo 0); [lia|]. destruct (Z.ltb_spec hi 0); [lia|].
  set (n := length l).
  destruct (Z.le_gt_cases lo (Z.of_nat n)) as [Hn|Hn].
  - rewrite (Z.min_l lo) by done.
    destruct (Z.le_gt_cases hi (Z.of_nat n)) as [Hm|Hm].
    + rewrite (Z.min_l hi) by done. f_equal. lia.
    + rewrite (Z.min_r hi) by lia.
      rewrite !take_ge; [done | rewrite length_drop; lia | rewrite length_drop; lia].
  - rewrite (Z.min_r lo) by lia.
    rewrite !drop_ge by lia. by rewrite !take_nil.
Qed.

Lemma range_batches (n : nat) (step : Z) :
  0 < step ->
  Py.range 0 (Z.of_nat n) step
  = Some (map (fun k => Z.of_nat k * step) (seq 0 (batch_count n step))).
Proof.
  intros Hstep. unfold Py.range, batch_count.
  destruct (Z.eqb_spec step 0); [lia|].
  destruct (Z.ltb_spec 0 step); [|lia].
  replace (Z.of_nat n - 0 - 1) with (Z.of_nat n - 1) by lia.
  f_equal.
Qed.

Lemma batch_count_start (n k : nat) (step : Z) :
  0 < step -> (k < batch_count n step)%nat -> Z.of_nat k * step < Z.of_nat n.
Proof.
  intros Hstep Hk. unfold batch_count in Hk.
  destruct (Z.ltb_spec 0 (Z.of_nat n)) as [Hn|Hn]; [|lia].
  assert (Z.of_nat k <= (Z.of_nat n - 1) / step) as Hle by lia.
  pose proof (Z.mul_div_le (Z.of_nat n - 1) step Hstep). nia.
Qed.

Lemma batch_count_cover (n : nat) (step : Z) :
  0 < step -> Z.of_nat n <= Z.of_nat (batch_count n step) * step.
Proof.
  intros Hstep. unfold batch_count.
  destruct (Z.ltb_spec 0 (Z.of_nat n)) as [Hn|Hn]; [|lia].
  pose proof (Z.div_pos (Z.of_nat n - 1) step ltac:(lia) Hstep).
  rewrite Z2Nat.id by lia.
  pose proof (Z.mul_succ_div_gt (Z.of_nat n - 1) step Hstep). nia.
Qed.

End PyFacts.

Lemma prepend_nil {E C} (r : E + list C) : prepend [] r = r.
Proof. by destruct r. Qed.

Lemma traverse_app {E A C} (f : A -> E + C) (l1 l2 : list A) :
  traverse f (l1 ++ l2)
  = match traverse f l1 with
    | inl e => inl e
    | inr ys => prepend ys (traverse f l2)
    end.
Proof.
  induction l1 as [|x l1 IH]; simpl.
  - by rewrite prepend_nil.
  - destruct (f x) as [e|y]; [done|]. rewrite IH.
    destruct (traverse f l1) as [e|ys]; [done|].
    by destruct (traverse f l2).
Qed.



Lemma traverse_elem {E A C} (f : A -> E + C) (l : list A) (ys : list C) (y : C) :
  traverse f l = inr ys -> y ∈ ys -> exists x, x ∈ l /\ f x = inr y.
Proof.
  revert ys. induction l as [|x l IH]; intros ys H Hy; simpl in H.
  - injection H as <-. by apply elem_of_nil in Hy.
  - destruct (f x) as [e|y'] eqn:Hfx; [done|].
    destruct (traverse f l) as [e|ys'] eqn:Hl; [done|].
    injection H as <-. apply elem_of_cons in Hy as [->|Hy].
    + exists x. split; [by left | done].
    + destruct (IH _ eq_refl Hy) as (x' & Hx' & Hf). exists x'. split; [by right | done].
Qed.

(** ** The loops of [classify_batch] and [classify_nli] *)

Section ServiceFacts.

Context `{B : Backend}.
Variable cfg : Config.

Lemma prob_dict_from_row lm probs idx row classes acc :
  probs !! idx = Some row ->
  prob_dict_from lm probs idx classes acc = prob_dict_from lm [row] 0%nat classes acc.
Proof.
  intros Hrow. revert acc. induction classes as [|i classes IH]; intros acc; simpl.
  - done.
  - destruct (lm !! i) as [l|]; [|done]. rewrite Hrow.
    destruct (row !! i) as [p|]; [|done]. apply IH.
Qed.

Lemma result_item_row label_map probs idx row :
  probs !! idx = Some row ->
  result_item label_map probs idx = row_item label_map row.
Proof.
  intros Hrow. unfold row_item, result_item.
  destruct label_map as [lm|]; [|done].
  rewrite (prob_dict_from_row _ _ _ _ _ _ Hrow), Hrow. done.
Qed.

Lemma collect_items_rows label_map (pre rows : Tensor) acc :
  collect_items label_map (pre ++ rows) (seq (length pre) (length rows)) acc
  = prepend acc (traverse (row_item label_map) rows).
Proof.
  revert pre acc. induction rows as [|row rows IH]; intros pre acc; simpl.
  - by rewrite app_nil_r.
  - rewrite (result_item_row _ _ _ row).
    2:{ rewrite lookup_app_r by lia. by rewrite Nat.sub_diag. }
    destruct (row_item label_map row) as [e|item]; [done|].
    replace (pre ++ row :: rows) with ((pre ++ [row]) ++ rows) by by rewrite <- app_assoc.
    replace (S (length pre)) with (length (pre ++ [row])) by (rewrite length_app; simpl; lia).
    rewrite IH. destruct (traverse (row_item label_map) rows) as [e|items]; simpl; [done|].
    by rewrite <- app_assoc.
Qed.

Lemma classify_batch_outcome g tok mdl batch :
  tokenizer g = Some tok -> model g = Some mdl ->
  length (batch_probs cfg tok mdl batch) = length batch ->
  outcome (classify_batch cfg g batch)
  = traverse (row_item (label_map g)) (batch_probs cfg tok mdl batch).
Proof.
  intros Htok Hmdl Hlen. unfold classify_batch. rewrite Htok, Hmdl. simpl.
  rewrite <- Hlen.
  pose proof (collect_items_rows (label_map g) [] (batch_probs cfg tok mdl batch) []) as H.
  simpl in H. rewrite H. unfold outcome. simpl.
  by destruct (traverse _ _).
Qed.

Lemma classify_batch_trace g tok mdl batch :
  tokenizer g = Some tok -> model g = Some mdl ->
  trace (classify_batch cfg g batch)
  = [TokenizerCall
       (map (fun p => Py.str_prefix (premise p) (MAX_LENGTH cfg)) batch)
       (map (fun p => Py.str_prefix (hypothesis p) (MAX_LENGTH cfg)) batch);
     ModelCall (batch_inputs cfg tok batch)].
Proof.
  intros Htok Hmdl. unfold classify_batch. by rewrite Htok, Hmdl.
Qed.

End ServiceFacts.

(** ** Contiguous batches *)

Lemma chunk_shift {A} (b : nat) (l : list A) (k : nat) :
  chunk b (drop b l) k = chunk b l (S k).
Proof. unfold chunk. rewrite drop_drop. repeat f_equal; lia. Qed.


Lemma chunk_length {A} (b : nat) (l : list A) (k : nat) :
  length (chunk b l k) = (b `min` (length l - k * b))%nat.
Proof. unfold chunk. by rewrite length_take, length_drop. Qed.

Lemma chunk_nonempty {A} (b : nat) (l : list A) (k : nat) :
  (0 < b)%nat -> (k * b < length l)%nat -> chunk b l k ≠ [].
Proof.
  intros Hb Hk Hnil. apply (f_equal length) in Hnil.
  rewrite chunk_length in Hnil. simpl in Hnil. lia.
Qed.

Lemma slice_chunk {A} (l : list A) (step : Z) (k : nat) :
  0 < step ->
  Py.slice l (Z.of_nat k * step) (Z.of_nat k * step + step)
  = chunk (Z.to_nat step) l k.
Proof.
  intros Hstep. rewrite PyFacts.slice_nonneg by lia. unfold chunk.
  f_equal; [|f_equal]; nia.
Qed.

Lemma concat_chunks {A} (b m : nat) (l : list A) :
  (length l <= m * b)%nat ->
  concat (map (chunk b l) (seq 0 m)) = l.
Proof.
  revert l. induction m as [|m IH]; intros l Hlen.
  - simpl in *. destruct l; [done | simpl in Hlen; lia].
  - rewrite <- cons_seq, <- fmap_S_seq. simpl.
    rewrite <- list_fmap_compose.
    rewrite (list_fmap_ext _ (chunk b (drop b l)) (seq 0 m)).
    2:{ intros i k _. simpl. by rewrite chunk_shift. }
    rewrite IH by (rewrite length_drop; lia).
    unfold chunk. simpl. by rewrite take_drop.
Qed.



(** ** [classify_nli] over a loaded service *)

Lemma outcome_bind `{Backend} {A C} (m : M A) (f : A -> M C) :
  outcome (bind m f)
  = match outcome m with
    | inl e => inl e
    | inr a => outcome (f a)
    end.
Proof.
  destruct m as [t [e|a]]; unfold outcome; simpl; [done|].
  by destruct (f a).
Qed.

Lemma outcome_ret `{Backend} {A} (a : A) : outcome (ret a) = inr a.
Proof. reflexivity. Qed.

Lemma trace_bind `{Backend} {A C} (m : M A) (f : A -> M C) :
  trace (bind m f)
  = match outcome m with
    | inl e => trace m
    | inr a => trace m ++ trace (f a)
    end.
Proof.
  destruct m as [t [e|a]]; unfold trace, outcome; simpl; [done|].
  by destruct (f a).
Qed.

Section NliFacts.

Context `{B : Backend}.
Variable cfg : Config.
Variable g : Globals.
Variable tok : Tokenizer.
Variable mdl : TorchModule Weights.

Hypothesis Htok : tokenizer g = Some tok.
Hypothesis Hmdl : model g = Some mdl.

(** The tensor has one row per item of the batch. *)
Hypothesis Hrows :
  forall batch, batch ≠ [] -> length (batch_probs cfg tok mdl batch) = length batch.

Hypothesis Hstep : 0 < BATCH_SIZE cfg.

Lemma slice_batch_nonempty (all : list NliPair) (i : Z) :
  0 <= i < Z.of_nat (length all) ->
  Py.slice all i (i + BATCH_SIZE cfg) ≠ [].
Proof.
  intros Hi Hnil. rewrite PyFacts.slice_nonneg in Hnil by lia.
  apply (f_equal length) in Hnil.
  rewrite length_take, length_drop in Hnil. simpl in Hnil. lia.
Qed.

Lemma classify_batches_outcome (all : list NliPair) (starts : list Z) acc :
  (forall i, i ∈ starts -> 0 <= i < Z.of_nat (length all)) ->
  outcome (classify_batches cfg g all starts acc)
  = prepend acc
      (traverse (row_item (label_map g))
         (concat (map (fun i => batch_probs cfg tok mdl
                                  (Py.slice all i (i + BATCH_SIZE cfg))) starts))).
Proof.
  revert acc. induction starts as [|i starts IH]; intros acc Hin;
    cbn [classify_batches map concat].
  - unfold outcome. simpl. by rewrite app_nil_r.
  - rewrite outcome_bind.
    rewrite (classify_batch_outcome cfg g tok mdl) by
      (try done; apply Hrows, slice_batch_nonempty, Hin; by left).
    rewrite traverse_app.
    destruct (traverse _ (batch_probs _ _ _ _)) as [e|ys]; [done|].
    rewrite IH by (intros j Hj; apply Hin; by right).
    destruct (traverse _ (concat _)) as [e|zs]; simpl; [done|].
    by rewrite app_assoc.
Qed.

Lemma classify_nli_outcome (request : NliRequest) :
  pairs request ≠ [] ->
  (length (pairs request) <= 100)%nat ->
  outcome (classify_nli cfg g request)
  = match traverse (row_item (label_map g)) (nli_rows cfg tok mdl (pairs request)) with
    | inl e => inl e
    | inr rs => inr {| results := rs |}
    end.
Proof.
  intros Hne Hlen. unfold classify_nli. rewrite Htok, Hmdl.
  destruct (pairs request) as [|p ps] eqn:Hps; [done|]. rewrite <- Hps in *.
  destruct (Z.ltb_spec 100 (Z.of_nat (length (pairs request)))); [lia|].
  rewrite PyFacts.range_batches by done.
  unfold get_or. rewrite outcome_bind, outcome_ret.
  rewrite outcome_bind, classify_batches_outcome.
  - rewrite prepend_nil, map_map. unfold nli_rows.
    rewrite (map_ext _ (fun k => batch_probs cfg tok mdl
                          (chunk (Z.to_nat (BATCH_SIZE cfg)) (pairs request) k))).
    2:{ intros k. by rewrite slice_chunk. }
    by destruct (traverse _ _).
  - intros i Hi. apply list_elem_of_In, in_map_iff in Hi as (k & <- & Hk).
    apply in_seq in Hk.
    pose proof (PyFacts.batch_count_start (length (pairs request)) k _ Hstep).
    split; [nia | lia].
Qed.



End NliFacts.

(** ** The label maps *)

Lemma LABEL_MAP_permutation : label_permutation LABEL_MAP.
Proof.
  split; [reflexivity|].
  exists "entailment", "neutral", "contradiction".
  repeat split; try reflexivity; discriminate.
Qed.

Lemma DEBERTA_LABEL_MAP_permutation : label_permutation DEBERTA_LABEL_MAP.
Proof.
  split; [reflexivity|].
  exists "contradiction", "neutral", "entailment".
  repeat split; try reflexivity; discriminate.
Qed.

Lemma select_label_map_permutation (nli_model : string) :
  label_permutation (select_label_map nli_model).
Proof.
  unfold select_label_map. destruct (Py.contains _ _).
  - apply DEBERTA_LABEL_MAP_permutation.
  - apply LABEL_MAP_permutation.
Qed.

(** ** [argmax] *)

Lemma argmax_from_spec (row pre : list Q) (best_i : nat) (best : Q) :
  pre !! best_i = Some best ->
  (forall q, q ∈ pre -> (q <= best)%Q) ->
  exists p,
    (pre ++ row) !! argmax_from best_i best (length pre) row = Some p /\
    forall q, q ∈ pre ++ row -> (q <= p)%Q.
Proof.
  revert pre best_i best. induction row as [|x row IH]; intros pre best_i best Hb Hmax.
  - simpl. rewrite app_nil_r. by exists best.
  - simpl. replace (pre ++ x :: row) with ((pre ++ [x]) ++ row)
      by by rewrite <- app_assoc.
    replace (S (length pre)) with (length (pre ++ [x]))
      by (rewrite length_app; simpl; lia).
    destruct (Qle_bool x best) eqn:Hx.
    + apply IH.
      * by apply lookup_app_l_Some.
      * intros q Hq. apply elem_of_app in Hq as [Hq|Hq]; [by apply Hmax|].
        apply list_elem_of_singleton in Hq as ->. by apply Qle_bool_iff.
    + assert (best < x)%Q as Hlt.
      { apply Qnot_le_lt. intros Hle. apply Qle_bool_iff in Hle. congruence. }
      apply IH.
      * rewrite lookup_app_r by lia. by rewrite Nat.sub_diag.
      * intros q Hq. apply elem_of_app in Hq as [Hq|Hq].
        -- apply Qle_trans with best; [by apply Hmax | by apply Qlt_le_weak].
        -- apply list_elem_of_singleton in Hq as ->. apply Qle_refl.
Qed.

Lemma argmax_spec (row : list Q) (i : nat) :
  argmax row = Some i ->
  exists p, row !! i = Some p /\ forall q, q ∈ row -> (q <= p)%Q.
Proof.
  destruct row as [|x row]; [done|]. simpl. intros [= <-].
  apply (argmax_from_spec row [x] 0%nat x); [done|].
  intros q Hq. apply list_elem_of_singleton in Hq as ->. apply Qle_refl.
Qed.

Lemma argmax_nonempty (row : list Q) : row ≠ [] -> is_Some (argmax row).
Proof. destruct row; [done | by eexists]. Qed.

(** ** One row of three probabilities *)

Lemma Qsum_perm (l1 l2 : list Q) : l1 ≡ₚ l2 -> (Qsum l1 == Qsum l2)%Q.
Proof.
  induction 1 as [|x l1 l2 _ IH|x y l|l1 l2 l3 _ IH1 _ IH2]; simpl.
  - reflexivity.
  - by rewrite IH.
  - ring.
  - by rewrite IH1.
Qed.

Section RowFacts.

Variable lm : gmap nat string.
Hypothesis Hlm : label_permutation lm.

(** The dictionary built for a row [a; b; c]. *)
Lemma row_item_three (a b c : Q) :
  exists l0 l1 l2 i l p,
    lm !! 0%nat = Some l0 /\ lm !! 1%nat = Some l1 /\ lm !! 2%nat = Some l2 /\
    argmax [a; b; c] = Some i /\ lm !! i = Some l /\ [a; b; c] !! i = Some p /\
    row_item (Some lm) [a; b; c]
    = inr {| label := l; confidence := p;
             scores := Some (<[l2 := c]> (<[l1 := b]> (<[l0 := a]> ∅))) |}.
Proof.
  destruct Hlm as (Hsize & l0 & l1 & l2 & H0 & H1 & H2 & _).
  assert (exists i, argmax [a; b; c] = Some i /\ (i < 3)%nat) as (i & Hi & Hlt).
  { unfold argmax, argmax_from.
    destruct (Qle_bool b a); destruct (Qle_bool c a); destruct (Qle_bool c b);
      eexists; (split; [reflexivity | lia]). }
  assert (exists l, lm !! i = Some l) as [l Hl].
  { destruct i as [|[|[|i]]]; [by eexists..|lia]. }
  destruct (lookup_lt_is_Some_2 [a; b; c] i) as [p Hp]; [simpl; lia|].
  exists l0, l1, l2, i, l, p. repeat split; try done.
  unfold row_item, result_item. rewrite Hsize.
  cbn [seq prob_dict_from]. rewrite H0, H1, H2.
  cbn [lookup list_lookup]. rewrite Hi, Hl.
  change (list_lookup i [a; b; c]) with ([a; b; c] !! i). by rewrite Hp.
Qed.

End RowFacts.

(** ** What the start-up leaves in the globals *)

Lemma load_model_ok `{Backend} (cfg : Config) (g0 g : Globals) :
  load_model cfg g0 = (g, inr tt) ->
  exists tok w,
    AutoTokenizer_from_pretrained (NLI_MODEL cfg) = Some tok /\
    AutoModel_from_pretrained (NLI_MODEL cfg) = Some w /\
    g = {| model := Some {| weights := w; on_cuda := use_cuda cfg; eval_mode := true |};
           tokenizer := Some tok;
           label_map := Some (select_label_map (NLI_MODEL cfg)) |}.
Proof.
  unfold load_model.
  destruct (AutoTokenizer_from_pretrained _) as [tok|]; [|done].
  destruct (AutoModel_from_pretrained _) as [w|]; [|done].
  destruct (if use_cuda cfg then module_cuda_error w else None); [done|].
  destruct (module_eval_error w); [done|].
  intros [= <-]. exists tok, w. repeat split; try done.
  by destruct (use_cuda cfg).
Qed.

Lemma load_model_loaded `{Backend} (cfg : Config) (g0 g : Globals) :
  load_model cfg g0 = (g, inr tt) ->
  exists tok mdl, loaded g tok mdl (select_label_map (NLI_MODEL cfg)).
Proof.
  intros Hload. destruct (load_model_ok _ _ _ Hload) as (tok & w & _ & _ & ->).
  eexists _, _. repeat split; try reflexivity.
  all: apply select_label_map_permutation.
Qed.

Lemma serve_globals `{Backend} (cfg : Config) (g : Globals) (reqs : list HttpRequest) :
  serve cfg g reqs = (g, map (handle cfg g) reqs).
Proof.
  induction reqs as [|req reqs IH]; simpl; [done|]. by rewrite IH.
Qed.

Lemma lifespan_ok `{Backend} (cfg : Config) (reqs : list HttpRequest) g responses :
  lifespan cfg reqs = inr (g, responses) ->
  load_model cfg initial_globals = (g, inr tt) /\
  responses = map (handle cfg g) reqs.
Proof.
  unfold lifespan. destruct (load_model cfg initial_globals) as [g1 [e|[]]] eqn:Hload; [done|].
  rewrite serve_globals. by intros [= <- <-].
Qed.

Lemma DEBERTA_LABEL_MAP_ne : DEBERTA_LABEL_MAP ≠ LABEL_MAP.
Proof. intros Heq. apply (f_equal (fun m => m !! 0%nat)) in Heq. discriminate. Qed.

(** ** Rows of a loaded service *)

Section Results.

Context `{B : Backend}.
Variable cfg : Config.
Variable g : Globals.
Variable tok : Tokenizer.
Variable mdl : TorchModule Weights.
Variable lm : gmap nat string.

Hypothesis Hloaded : loaded g tok mdl lm.
Hypothesis Hrows : one_row_per_item cfg tok mdl.
Hypothesis Hthree : three_classes cfg tok mdl.


(** Every row a request gives rise to belongs to the tensor of a non-empty
    batch. *)
Lemma nli_rows_elem (all : list NliPair) (row : list Q) :
  0 < BATCH_SIZE cfg ->
  row ∈ nli_rows cfg tok mdl all ->
  exists batch, batch ≠ [] /\ row ∈ batch_probs cfg tok mdl batch.
Proof.
  intros Hstep Hin. unfold nli_rows in Hin.
  apply list_elem_of_In, in_concat in Hin as (rows & Hin & Hrow).
  apply in_map_iff in Hin as (k & <- & Hk).
  apply in_seq in Hk. eexists. split; [|apply list_elem_of_In; exact Hrow].
  apply chunk_nonempty; [lia|].
  pose proof (PyFacts.batch_count_start (length all) k _ Hstep). nia.
Qed.

End Results.

(** ** What a returned result is made of *)

Lemma row_item_scores (lm : gmap nat string) (row : list Q) (item : NliResultItem) :
  label_permutation lm ->
  length row = 3%nat ->
  row_item (Some lm) row = inr item ->
  exists m,
    scores item = Some m /\
    dom m = canonical_labels /\
    (forall l p, m !! l = Some p -> p ∈ row) /\
    (scores_total m == Qsum row)%Q /\
    m !! label item = Some (confidence item) /\
    (forall q, q ∈ row -> (q <= confidence item)%Q).
Proof.
  intros Hperm Hlen Hitem.
  destruct row as [|a [|b [|c [|d row]]]]; try done.
  destruct (row_item_three lm Hperm a b c)
    as (l0 & l1 & l2 & i & l & p & H0 & H1 & H2 & Hi & Hl & Hp & Heq).
  rewrite Heq in Hitem. injection Hitem as <-. simpl.
  destruct Hperm as (_ & k0 & k1 & k2 & K0 & K1 & K2 & N01 & N02 & N12 & Hset).
  rewrite H0 in K0. rewrite H1 in K1. rewrite H2 in K2.
  injection K0 as <-. injection K1 as <-. injection K2 as <-.
  eexists. split; [reflexivity|].
  split; [|split; [|split; [|split]]].
  - rewrite !dom_insert_L, dom_empty_L, <- Hset.
    apply set_eq. intros x.
    rewrite !elem_of_union, !elem_of_singleton, elem_of_empty. tauto.
  - intros k q Hk.
    apply lookup_insert_Some in Hk as [[_ <-]|[_ Hk]]; [by repeat constructor|].
    apply lookup_insert_Some in Hk as [[_ <-]|[_ Hk]]; [by repeat constructor|].
    apply lookup_insert_Some in Hk as [[_ <-]|[_ Hk]]; [by repeat constructor|].
    by rewrite lookup_empty in Hk.
  - unfold scores_total.
    assert (map_to_list (<[l2:=c]> (<[l1:=b]> (<[l0:=a]> (∅ : gmap string Q))))
            ≡ₚ [(l2, c); (l1, b); (l0, a)]) as Hlist.
    { rewrite map_to_list_insert
        by (by rewrite !lookup_insert_ne, lookup_empty by done).
      rewrite map_to_list_insert by (by rewrite lookup_insert_ne, lookup_empty by done).
      rewrite map_to_list_insert by apply lookup_empty.
      by rewrite map_to_list_empty. }
    rewrite (Qsum_perm _ [c; b; a]) by (by rewrite Hlist).
    simpl. ring.
  - assert (i < 3)%nat as Hlt by (apply lookup_lt_Some in Hp; simpl in Hp; lia).
    destruct i as [|[|[|i]]]; [| | |lia]; simpl in Hp; injection Hp as <-.
    + rewrite H0 in Hl. injection Hl as <-.
      by rewrite !lookup_insert_ne, lookup_insert_eq by done.
    + rewrite H1 in Hl. injection Hl as <-.
      by rewrite lookup_insert_ne, lookup_insert_eq by done.
    + rewrite H2 in Hl. injection Hl as <-.
      by rewrite lookup_insert_eq.
  - destruct (argmax_spec _ _ Hi) as (p' & Hp' & Hmax).
    rewrite Hp in Hp'. injection Hp' as <-. exact Hmax.
Qed.

Lemma range_negative_step (n : nat) (step : Z) :
  step < 0 -> Py.range 0 (Z.of_nat n) step = Some [].
Proof.
  intros Hstep. unfold Py.range.
  destruct (Z.eqb_spec step 0); [lia|].
  destruct (Z.ltb_spec 0 step); [lia|].
  destruct (Z.ltb_spec (Z.of_nat n) 0); [lia|]. done.
Qed.

Lemma classify_nli_nonempty `{Backend} (cfg : Config) (g : Globals)
    (tok : Tokenizer) (mdl : TorchModule Weights) (request : NliRequest) :
  tokenizer g = Some tok -> model g = Some mdl -> pairs request ≠ [] ->
  classify_nli cfg g request
  = if 100 <? Z.of_nat (length (pairs request))
    then raise (HTTPException 400 "Maximum 100 pairs per request")
    else
      starts <- get_or ValueError
                  (Py.range 0 (Z.of_nat (length (pairs request))) (BATCH_SIZE cfg)) ;;
      results <- classify_batches cfg g (pairs request) starts [] ;;
      ret {| results := results |}.
Proof.
  intros Htok Hmdl Hne. unfold classify_nli. rewrite Htok, Hmdl.
  by destruct (pairs request).
Qed.

(** The loop needs a positive step: with [BATCH_SIZE] at 0 the [range] raises,
    and with a negative [BATCH_SIZE] it is empty and the answer has no result. *)
Lemma nli_nonpositive_batch_size `{Backend} (cfg : Config) (g : Globals)
    (tok : Tokenizer) (mdl : TorchModule Weights) (request : NliRequest) :
  tokenizer g = Some tok -> model g = Some mdl ->
  pairs request ≠ [] -> (length (pairs request) <= 100)%nat ->
  (BATCH_SIZE cfg = 0 -> classify_nli cfg g request = raise ValueError) /\
  (BATCH_SIZE cfg < 0 -> classify_nli cfg g request = ret {| results := [] |}).
Proof.
  intros Htok Hmdl Hne Hlen.
  rewrite (classify_nli_nonempty cfg g tok mdl) by done.
  destruct (Z.ltb_spec 100 (Z.of_nat (length (pairs request)))); [lia|].
  split; intros Hstep.
  - by rewrite Hstep.
  - by rewrite range_negative_step.
Qed.

Section Returned.

Context `{B : Backend}.
Variable cfg : Config.
Variable g : Globals.
Variable tok : Tokenizer.
Variable mdl : TorchModule Weights.
Variable lm : gmap nat string.

Hypothesis Hloaded : loaded g tok mdl lm.
Hypothesis Hrows : one_row_per_item cfg tok mdl.

(** A result of [classify_batch] is built from a row of the tensor of its
    batch. *)
Lemma classify_batch_item (batch : list NliPair) rs item :
  outcome (classify_batch cfg g batch) = inr rs ->
  item ∈ rs ->
  batch ≠ [] /\
  exists row, row ∈ batch_probs cfg tok mdl batch /\ row_item (Some lm) row = inr item.
Proof.
  destruct Hloaded as (Htok & Hmdl & Hlm & _).
  intros Hout Hitem.
  destruct batch as [|p batch].
  - unfold classify_batch in Hout. rewrite Htok, Hmdl in Hout.
    unfold outcome in Hout. simpl in Hout. injection Hout as <-.
    by apply elem_of_nil in Hitem.
  - split; [done|].
    rewrite (classify_batch_outcome cfg g tok mdl) in Hout by (try done; by apply Hrows).
    rewrite Hlm in Hout.
    destruct (traverse_elem _ _ _ _ Hout Hitem) as (row & Hrow & Hf). by exists row.
Qed.

(** A result of [classify_nli] is built from a row of the tensor of one of
    its batches. *)
Lemma classify_nli_item (request : NliRequest) response item :
  outcome (classify_nli cfg g request) = inr response ->
  item ∈ results response ->
  exists batch row,
    batch ≠ [] /\ row ∈ batch_probs cfg tok mdl batch /\
    row_item (Some lm) row = inr item.
Proof.
  pose proof Hloaded as (Htok & Hmdl & Hlm & _).
  intros Hout Hitem.
  destruct (decide (pairs request = [])) as [Hps|Hps].
  { unfold classify_nli in Hout. rewrite Htok, Hmdl, Hps in Hout.
    injection Hout as <-. by apply elem_of_nil in Hitem. }
  destruct (Z.ltb_spec 100 (Z.of_nat (length (pairs request)))) as [Hlen|Hlen].
  { rewrite (classify_nli_nonempty cfg g tok mdl) in Hout by done.
    destruct (Z.ltb_spec 100 (Z.of_nat (length (pairs request)))); [done | lia]. }
  destruct (Z.lt_trichotomy (BATCH_SIZE cfg) 0) as [Hneg|[Hzero|Hpos]].
  - rewrite (classify_nli_nonempty cfg g tok mdl) in Hout by done.
    destruct (Z.ltb_spec 100 (Z.of_nat (length (pairs request)))); [lia|].
    rewrite range_negative_step in Hout by done.
    injection Hout as <-. by apply elem_of_nil in Hitem.
  - rewrite (classify_nli_nonempty cfg g tok mdl) in Hout by done.
    destruct (Z.ltb_spec 100 (Z.of_nat (length (pairs request)))); [lia|].
    rewrite Hzero in Hout. done.
  - rewrite (classify_nli_outcome cfg g tok mdl Htok Hmdl Hrows Hpos) in Hout
      by (try done; lia).
    rewrite Hlm in Hout.
    destruct (traverse _ _) as [e|rs] eqn:Hrs; [done|].
    injection Hout as <-. simpl in Hitem.
    destruct (traverse_elem _ _ _ _ Hrs Hitem) as (row & Hrow & Hf).
    destruct (nli_rows_elem cfg tok mdl _ _ Hpos Hrow) as (batch & Hb & Hin).
    by exists batch, row.
Qed.

End Returned.

(** ** Batch boundaries *)

Lemma itemwise_concat `{Backend} (cfg : Config) (tok : Tokenizer)
    (mdl : TorchModule Weights) (bs : list (list NliPair)) :
  itemwise cfg tok mdl ->
  bs ≠ [] -> Forall (fun b => b ≠ []) bs ->
  batch_probs cfg tok mdl (concat bs) = concat (map (batch_probs cfg tok mdl) bs).
Proof.
  intros Hitem Hne Hall. induction bs as [|b bs IH]; [done|].
  apply Forall_cons in Hall as [Hb Hall].
  destruct bs as [|b' bs].
  - simpl. by rewrite !app_nil_r.
  - change (concat (b :: b' :: bs)) with (b ++ concat (b' :: bs)).
    rewrite Hitem, IH; try done.
    apply Forall_cons in Hall as [Hb' _]. simpl. by destruct b'.
Qed.

(** ** The small backend meets what is asked *)

Module ToyFacts.

Import Toy.

Lemma zip_maps {A C D} (f : A -> C) (h : A -> D) (l : list A) :
  zip (map f l) (map h l) = map (fun x => (f x, h x)) l.
Proof. induction l as [|x l IH]; simpl; [done | by rewrite IH]. Qed.

Lemma batch_probs_rows (cfg : Config) (tok : unit) (mdl : TorchModule unit)
    (batch : list NliPair) :
  batch_probs (B := backend) cfg tok mdl batch = map (row_of cfg) batch.
Proof.
  unfold batch_probs, batch_inputs. simpl.
  assert (forall e : list (string * string),
            (if use_cuda (B := backend) cfg then e else e) = e) as -> by (by destruct (use_cuda _)).
  by rewrite zip_maps, !map_map.
Qed.

Lemma softmax_row_cases (row : list Q) :
  softmax_row row = [7 # 10; 2 # 10; 1 # 10]%Q \/
  softmax_row row = [2 # 10; 7 # 10; 1 # 10]%Q \/
  softmax_row row = [1 # 10; 2 # 10; 7 # 10]%Q.
Proof.
  unfold softmax_row. destruct (argmax row) as [[|[|i]]|]; auto.
Qed.

Lemma toy_one_row_per_item cfg tok mdl : one_row_per_item (H := backend) cfg tok mdl.
Proof. intros batch _. by rewrite batch_probs_rows, length_map. Qed.

Lemma toy_three_classes cfg tok mdl : three_classes (H := backend) cfg tok mdl.
Proof.
  intros batch row _ Hrow. rewrite batch_probs_rows in Hrow.
  apply list_elem_of_In, in_map_iff in Hrow as (p & <- & _). unfold row_of.
  by destruct (softmax_row_cases (logits_of
       (Py.str_prefix (premise p) (MAX_LENGTH cfg),
        Py.str_prefix (hypothesis p) (MAX_LENGTH cfg)))) as [-> | [-> | ->]].
Qed.


Lemma toy_itemwise cfg tok mdl : itemwise (H := backend) cfg tok mdl.
Proof. intros b1 b2 _ _. by rewrite !batch_probs_rows, map_app. Qed.

Lemma toy_loaded :
  loaded started tt
    {| weights := tt; on_cuda := false; eval_mode := true |} DEBERTA_LABEL_MAP.
Proof.
  split; [reflexivity|]. split; [reflexivity|]. split; [reflexivity|].
  apply DEBERTA_LABEL_MAP_permutation.
Qed.

End ToyFacts.

(** * The claims *)






(** C3: in every result returned by [classify_batch], and so in every result
    of a [POST /nli] answer, the scores dictionary gives the label of the
    result the confidence of the result, and gives no label more. *)
Theorem label_has_the_highest_score `{Backend} (cfg : Config) (g : Globals)
    (tok : Tokenizer) (mdl : TorchModule Weights) (lm : gmap nat string)
    (batch : list NliPair) (rs : list NliResultItem)
    (request : NliRequest) (response : NliResponse) (item : NliResultItem) :
  loaded g tok mdl lm ->
  one_row_per_item cfg tok mdl ->
  three_classes cfg tok mdl ->
  (outcome (classify_batch cfg g batch) = inr rs /\ item ∈ rs) \/
  (outcome (classify_nli cfg g request) = inr response /\ item ∈ results response) ->
  exists m,
    scores item = Some m /\
    m !! label item = Some (confidence item) /\
    forall l p, m !! l = Some p -> (p <= confidence item)%Q.
Proof.
  intros Hloaded Hrows Hthree Hitem.
  assert (exists b row, b ≠ [] /\ row ∈ batch_probs cfg tok mdl b /\
                        row_item (Some lm) row = inr item) as (b & row & Hb & Hrow & Hf).
  { destruct Hitem as [[Hout Hin] | [Hout Hin]].
    - destruct (classify_batch_item cfg g tok mdl lm Hloaded Hrows _ _ _ Hout Hin)
        as (Hne & row & Hrow & Hf).
      by exists batch, row.
    - by apply (classify_nli_item cfg g tok mdl lm Hloaded Hrows request response). }
  destruct Hloaded as (_ & _ & _ & Hperm).
  destruct (row_item_scores lm row item Hperm (Hthree b row Hb Hrow) Hf)
    as (m & Hm & _ & Hvals & _ & Hlabel & Hmax).
  exists m. split; [done|]. split; [done|].
  intros l p Hl. by apply Hmax, (Hvals l).
Qed.

Lemma label_has_the_highest_score_witness :
  exists m,
    scores Toy.first_answer = Some m /\
    m !! label Toy.first_answer = Some (confidence Toy.first_answer) /\
    forall l p, m !! l = Some p -> (p <= confidence Toy.first_answer)%Q.
Proof.
  apply (label_has_the_highest_score default_config Toy.started tt
           {| weights := tt; on_cuda := false; eval_mode := true |}
           DEBERTA_LABEL_MAP [] [] (Toy.req Toy.three_pairs)
           {| results := Toy.answers Toy.three_pairs |} Toy.first_answer).
  - exact ToyFacts.toy_loaded.
  - apply ToyFacts.toy_one_row_per_item.
  - apply ToyFacts.toy_three_classes.
  - right. split; [reflexivity | left].
Defined.

(** C4: the label map is a permutation of the three canonical labels, chosen
    by [load_model] from the model identifier alone (the DeBERTa order when
    some stretch of the identifier reads "deberta" once lower-cased, the plain
    MNLI order otherwise); the globals that [load_model] leaves are the ones
    every request of the process is answered from, and they are still in place
    after the last request. *)
Theorem label_map_fixed_at_load `{Backend} (cfg : Config) (reqs : list HttpRequest)
    (g : Globals) (responses : list (M Body)) :
  lifespan cfg reqs = inr (g, responses) ->
  label_map g = Some (select_label_map (NLI_MODEL cfg)) /\
  label_permutation (select_label_map (NLI_MODEL cfg)) /\
  (forall nli_model,
     let mentions_deberta :=
       exists pre mid post,
         nli_model = (pre ++ mid ++ post)%string /\ Py.lower mid = "deberta" in
     (mentions_deberta -> select_label_map nli_model = DEBERTA_LABEL_MAP) /\
     (~ mentions_deberta -> select_label_map nli_model = LABEL_MAP)) /\
  (DEBERTA_LABEL_MAP !! 0%nat = Some "contradiction" /\
   DEBERTA_LABEL_MAP !! 1%nat = Some "neutral" /\
   DEBERTA_LABEL_MAP !! 2%nat = Some "entailment") /\
  (LABEL_MAP !! 0%nat = Some "entailment" /\
   LABEL_MAP !! 1%nat = Some "neutral" /\
   LABEL_MAP !! 2%nat = Some "contradiction") /\
  forall i req, reqs !! i = Some req -> responses !! i = Some (handle cfg g req).
Proof.
  intros Hrun. destruct (lifespan_ok _ _ _ _ Hrun) as [Hload ->].
  destruct (load_model_ok _ _ _ Hload) as (tok & w & _ & _ & Hg).
  split; [by rewrite Hg|].
  split; [apply select_label_map_permutation|].
  split.
  { intros nli_model mentions_deberta. unfold select_label_map.
    destruct (Py.contains "deberta" (Py.lower nli_model)) eqn:Hc.
    - split; [done|]. intros Hno. destruct Hno.
      by apply PyFacts.contains_lower_spec.
    - split; [|done]. intros Hyes.
      apply PyFacts.contains_lower_spec in Hyes. congruence. }
  split; [by repeat split|]. split; [by repeat split|].
  intros i req Hreq. by rewrite list_lookup_fmap, Hreq.
Qed.

Lemma label_map_fixed_at_load_witness :
  let reqs := [GET_health; POST_nli (Toy.req [Toy.pair "a" "bcd"]); GET_root] in
  lifespan default_config reqs = inr (Toy.started, map (handle default_config Toy.started) reqs) /\
  label_map Toy.started = Some (select_label_map "microsoft/deberta-v3-large-mnli") /\
  select_label_map "microsoft/deberta-v3-large-mnli" = DEBERTA_LABEL_MAP.
Proof.
  intros reqs. split; [reflexivity|].
  destruct (label_map_fixed_at_load default_config reqs Toy.started
              (map (handle default_config Toy.started) reqs) eq_refl)
    as (Hmap & _ & Hsel & _).
  split; [exact Hmap|].
  apply (Hsel "microsoft/deberta-v3-large-mnli").
  exists "microsoft/", "deberta", "-v3-large-mnli". split; reflexivity.
Defined.

(** On a loaded service whose network scores each item by itself, the
    results of a request cut into batches are the results [classify_batch]
    gives for the whole pair list taken as one batch. *)
Lemma batch_boundary_invariance `{Backend} (cfg : Config) (g : Globals)
    (tok : Tokenizer) (mdl : TorchModule Weights) (request : NliRequest) :
  tokenizer g = Some tok ->
  model g = Some mdl ->
  one_row_per_item cfg tok mdl ->
  itemwise cfg tok mdl ->
  0 < BATCH_SIZE cfg ->
  pairs request ≠ [] ->
  (length (pairs request) <= 100)%nat ->
  outcome (classify_nli cfg g request)
  = match outcome (classify_batch cfg g (pairs request)) with
    | inl e => inl e
    | inr rs => inr {| results := rs |}
    end.
Proof.
  intros Htok Hmdl Hrows Hitem Hstep Hne Hlen.
  rewrite (classify_nli_outcome cfg g tok mdl Htok Hmdl Hrows Hstep request Hne Hlen).
  rewrite (classify_batch_outcome cfg g tok mdl) by (try done; by apply Hrows).
  assert (nli_rows cfg tok mdl (pairs request) = batch_probs cfg tok mdl (pairs request))
    as ->; [|done].
  unfold nli_rows.
  set (b := Z.to_nat (BATCH_SIZE cfg)).
  set (m := batch_count (length (pairs request)) (BATCH_SIZE cfg)).
  pose proof (PyFacts.batch_count_cover (length (pairs request)) _ Hstep) as Hcover.
  fold m in Hcover.
  assert (length (pairs request) <= m * b)%nat as Hcover' by (unfold b; nia).
  assert (batch_probs cfg tok mdl (pairs request)
          = batch_probs cfg tok mdl (concat (map (chunk b (pairs request)) (seq 0 m))))
    as -> by (by rewrite concat_chunks).
  rewrite itemwise_concat; [by rewrite map_map|done| |].
  - intros Hnil. apply (f_equal length) in Hnil. rewrite length_map, length_seq in Hnil.
    destruct (pairs request); [done|]. simpl in *. lia.
  - apply Forall_forall. intros c Hc.
    apply list_elem_of_In, in_map_iff in Hc as (k & <- & Hk). apply in_seq in Hk.
    apply chunk_nonempty; [unfold b; lia|].
    pose proof (PyFacts.batch_count_start (length (pairs request)) k _ Hstep) as Hstart.
    unfold b. fold m in Hstart. nia.
Qed.

(** C6, as the code has it: on a service whose model and tokenizer are
    loaded, an empty pair list is answered at once with an empty result list
    and status 200, and nothing is computed. *)
Theorem nli_empty_on_loaded_service `{Backend} (cfg : Config) (g : Globals)
    (request : NliRequest) :
  is_Some (model g) -> is_Some (tokenizer g) ->
  pairs request = [] ->
  classify_nli cfg g request = ret {| results := [] |} /\
  http_status (classify_nli cfg g request) = 200 /\
  trace (classify_nli cfg g request) = [].
Proof.
  intros [mdl Hmdl] [tok Htok] Hpairs.
  assert (classify_nli cfg g request = ret {| results := [] |}) as ->.
  { unfold classify_nli. by rewrite Hmdl, Htok, Hpairs. }
  done.
Qed.

Lemma nli_empty_on_loaded_service_witness :
  classify_nli default_config Toy.started (Toy.req []) = ret {| results := [] |} /\
  http_status (classify_nli default_config Toy.started (Toy.req [])) = 200 /\
  trace (classify_nli default_config Toy.started (Toy.req [])) = [].
Proof.
  apply (nli_empty_on_loaded_service default_config Toy.started (Toy.req [])).
  - eexists. reflexivity.
  - eexists. reflexivity.
  - reflexivity.
Defined.

(** C6 as stated fails: before the model is loaded an empty pair list is
    answered with status 503. *)
Lemma nli_empty_rejected_before_load :
  pairs (Toy.req []) = [] /\
  outcome (classify_nli default_config Toy.fresh (Toy.req []))
  = inl (HTTPException 503 "Model not loaded") /\
  http_status (classify_nli default_config Toy.fresh (Toy.req [])) = 503 /\
  outcome (classify_nli default_config Toy.fresh (Toy.req [])) <> inr {| results := [] |}.
Proof. repeat split. discriminate. Qed.

(** C7, as the code has it: on a service whose model and tokenizer are
    loaded, a pair list of more than 100 pairs is answered with
    [HTTPException 400], and neither the tokenizer nor the network is called. *)
Theorem nli_too_many_pairs_on_loaded_service `{Backend} (cfg : Config) (g : Globals)
    (request : NliRequest) :
  is_Some (model g) -> is_Some (tokenizer g) ->
  (100 < length (pairs request))%nat ->
  classify_nli cfg g request = raise (HTTPException 400 "Maximum 100 pairs per request") /\
  http_status (classify_nli cfg g request) = 400 /\
  trace (classify_nli cfg g request) = [].
Proof.
  intros [mdl Hmdl] [tok Htok] Hlen.
  assert (classify_nli cfg g request
          = raise (HTTPException 400 "Maximum 100 pairs per request")) as ->.
  { unfold classify_nli. rewrite Hmdl, Htok.
    destruct (pairs request) as [|p ps] eqn:Hps; [simpl in Hlen; lia|].
    destruct (Z.ltb_spec 100 (Z.of_nat (length (p :: ps)))); [done | lia]. }
  done.
Qed.

Lemma nli_too_many_pairs_on_loaded_service_witness :
  classify_nli default_config Toy.started Toy.too_many
  = raise (HTTPException 400 "Maximum 100 pairs per request") /\
  http_status (classify_nli default_config Toy.started Toy.too_many) = 400 /\
  trace (classify_nli default_config Toy.started Toy.too_many) = [].
Proof.
  apply (nli_too_many_pairs_on_loaded_service default_config Toy.started Toy.too_many).
  - eexists. reflexivity.
  - eexists. reflexivity.
  - vm_compute. lia.
Defined.

(** C7 as stated fails: before the model is loaded a list of 101 pairs is
    answered with status 503, not 400. *)
Lemma nli_too_many_pairs_before_load :
  length (pairs Toy.too_many) = 101%nat /\
  outcome (classify_nli default_config Toy.fresh Toy.too_many)
  = inl (HTTPException 503 "Model not loaded") /\
  http_status (classify_nli default_config Toy.fresh Toy.too_many) = 503 /\
  http_status (classify_nli default_config Toy.fresh Toy.too_many) <> 400.
Proof. repeat split. discriminate. Qed.

(** C8: a classification request that finds the model or the tokenizer
    missing is answered with [HTTPException 503] whatever its pair list holds
    (empty, or longer than 100 included), and neither the tokenizer nor the
    network is called. *)
Theorem nli_unavailable_before_load `{Backend} (cfg : Config) (g : Globals)
    (request : NliRequest) :
  model g = None \/ tokenizer g = None ->
  classify_nli cfg g request = raise (HTTPException 503 "Model not loaded") /\
  http_status (classify_nli cfg g request) = 503 /\
  trace (classify_nli cfg g request) = [].
Proof.
  intros Hnone.
  assert (classify_nli cfg g request = raise (HTTPException 503 "Model not loaded")) as ->.
  { unfold classify_nli. destruct Hnone as [-> | ->]; [done|]. by destruct (model g). }
  done.
Qed.

Lemma nli_unavailable_before_load_witness :
  classify_nli default_config Toy.fresh Toy.too_many
  = raise (HTTPException 503 "Model not loaded") /\
  http_status (classify_nli default_config Toy.fresh Toy.too_many) = 503 /\
  trace (classify_nli default_config Toy.fresh Toy.too_many) = [].
Proof.
  apply (nli_unavailable_before_load default_config Toy.fresh Toy.too_many).
  left. reflexivity.
Defined.

(** C9: the answer to [POST /nli] is a function of the pairs alone.  Two
    requests with the same pairs get the same answer from the same globals,
    whatever their [model] fields say; and within one process any two such
    requests, wherever they stand in the sequence served, get the same
    answer. *)
Theorem nli_depends_on_pairs_only `{Backend} (cfg : Config) (g : Globals)
    (r1 r2 : NliRequest) (reqs : list HttpRequest) (i j : nat) :
  pairs r1 = pairs r2 ->
  reqs !! i = Some (POST_nli r1) ->
  reqs !! j = Some (POST_nli r2) ->
  classify_nli cfg g r1 = classify_nli cfg g r2 /\
  forall g' responses,
    lifespan cfg reqs = inr (g', responses) ->
    exists answer,
      responses !! i = Some answer /\ responses !! j = Some answer /\
      answer = handle cfg g' (POST_nli {| pairs := pairs r1; requested_model := None |}).
Proof.
  intros Hpairs Hi Hj.
  assert (forall g0 r, classify_nli cfg g0 r
            = classify_nli cfg g0 {| pairs := pairs r; requested_model := None |}) as Hfield.
  { intros g0 r. reflexivity. }
  split.
  - by rewrite (Hfield g r1), (Hfield g r2), Hpairs.
  - intros g' responses Hrun.
    destruct (lifespan_ok _ _ _ _ Hrun) as [_ ->].
    exists (handle cfg g' (POST_nli r1)).
    rewrite !list_lookup_fmap, Hi, Hj. simpl.
    repeat split.
    by rewrite (Hfield g' r1), (Hfield g' r2), Hpairs.
Qed.

Lemma nli_depends_on_pairs_only_witness :
  let ps := [Toy.pair "it rains" "it is wet"; Toy.pair "a" "b"] in
  let r1 := {| pairs := ps; requested_model := None |} in
  let r2 := {| pairs := ps; requested_model := Some "roberta-large-mnli" |} in
  classify_nli default_config Toy.started r1 = classify_nli default_config Toy.started r2 /\
  forall (g' : Globals (H := Toy.backend)) responses,
    lifespan default_config [POST_nli r1; GET_health; POST_nli r2] = inr (g', responses) ->
    exists answer,
      responses !! 0%nat = Some answer /\ responses !! 2%nat = Some answer /\
      answer = handle default_config g' (POST_nli {| pairs := ps; requested_model := None |}).
Proof.
  intros ps r1 r2.
  apply (nli_depends_on_pairs_only default_config Toy.started r1 r2
           [POST_nli r1; GET_health; POST_nli r2] 0 2); reflexivity.
Defined.

(** C10, as the code has it: while [model] is [None] the health query is
    answered with [HTTPException 503]; once [load_model] has succeeded it is
    answered "healthy" with the configured identifier [NLI_MODEL], which is the
    checkpoint that was loaded, and the configured [DEVICE] string.  That string
    names the device the network sits on when it is "cpu", or "cuda" with an
    accelerator present. *)
Theorem health_check_reports_configuration `{Backend} (cfg : Config) (g0 g : Globals) :
  model g0 = None ->
  load_model cfg g0 = (g, inr tt) ->
  (health_check cfg g0 = raise (HTTPException 503 "Model not loaded") /\
   http_status (health_check cfg g0) = 503) /\
  (health_check cfg g
   = ret {| status := "healthy"; health_model := NLI_MODEL cfg; device := DEVICE cfg |} /\
   http_status (health_check cfg g) = 200) /\
  exists w,
    AutoModel_from_pretrained (NLI_MODEL cfg) = Some w /\
    exists mdl, model g = Some mdl /\ weights mdl = w /\
      (DEVICE cfg = "cpu" \/ (DEVICE cfg = "cuda" /\ cuda_is_available = true) ->
       DEVICE cfg = active_device mdl).
Proof.
  intros Hnone Hload.
  destruct (load_model_ok _ _ _ Hload) as (tok & w & _ & Hw & ->).
  split; [|split].
  - unfold health_check. by rewrite Hnone.
  - done.
  - exists w. split; [done|]. eexists. split; [reflexivity|]. split; [done|].
    unfold active_device, use_cuda. simpl.
    intros [Hcpu | [Hcuda Havail]].
    + rewrite Hcpu. reflexivity.
    + rewrite Havail, Hcuda. reflexivity.
Qed.

Lemma health_check_reports_configuration_witness :
  (health_check default_config Toy.fresh = raise (HTTPException 503 "Model not loaded") /\
   http_status (health_check default_config Toy.fresh) = 503) /\
  (health_check default_config Toy.started
   = ret {| status := "healthy";
            health_model := "microsoft/deberta-v3-large-mnli";
            device := "cpu" |} /\
   http_status (health_check default_config Toy.started) = 200) /\
  exists w,
    @AutoModel_from_pretrained Toy.backend (NLI_MODEL default_config) = Some w /\
    exists mdl, model Toy.started = Some mdl /\ weights mdl = w /\
      (DEVICE default_config = "cpu" \/
       (DEVICE default_config = "cuda" /\ @cuda_is_available Toy.backend = true) ->
       DEVICE default_config = active_device mdl).
Proof.
  apply (health_check_reports_configuration default_config Toy.fresh Toy.started);
    reflexivity.
Defined.

(** C10 as stated fails: with [DEVICE] set to "cuda" and no accelerator the
    network stays on the processor, yet the health query reports "cuda". *)
Lemma health_check_device_not_active :
  load_model Toy.cuda_config Toy.fresh = (Toy.started_cuda, inr tt) /\
  outcome (health_check Toy.cuda_config Toy.started_cuda)
  = inr {| status := "healthy";
           health_model := "microsoft/deberta-v3-large-mnli";
           device := "cuda" |} /\
  (active_device <$> model Toy.started_cuda) = Some "cpu".
Proof. repeat split. Qed.

(** * Further properties of the service *)

(** ** Exceptions and lengths of the loops *)

(** Closes a goal [inl e' = inl e -> ~ is_http e] for a plain exception [e']. *)
Ltac raised_plain := intros [= <-] Hhttp; exact Hhttp.

Lemma prob_dict_from_not_http lm probs idx classes acc e :
  prob_dict_from lm probs idx classes acc = inl e -> ~ is_http e.
Proof.
  revert acc. induction classes as [|i classes IH]; intros acc; simpl; [done|].
  destruct (lm !! i) as [l|]; [|raised_plain].
  destruct (probs !! idx) as [row|]; [|raised_plain].
  destruct (row !! i) as [p|]; [|raised_plain].
  apply IH.
Qed.

Lemma result_item_not_http label_map probs idx e :
  result_item label_map probs idx = inl e -> ~ is_http e.
Proof.
  unfold result_item. destruct label_map as [lm|]; [|raised_plain].
  destruct (prob_dict_from lm probs idx _ _) as [e'|d] eqn:Hd.
  { intros [= <-]. by eapply prob_dict_from_not_http. }
  destruct (probs !! idx) as [row|]; [|raised_plain].
  destruct (argmax row) as [i|]; [|raised_plain].
  destruct (lm !! i) as [l|]; [|raised_plain].
  destruct (row !! i) as [c|]; [done | raised_plain].
Qed.

Lemma collect_items_not_http label_map probs idxs acc e :
  collect_items label_map probs idxs acc = inl e -> ~ is_http e.
Proof.
  revert acc. induction idxs as [|idx idxs IH]; intros acc; simpl; [done|].
  destruct (result_item label_map probs idx) as [e'|item] eqn:Hitem.
  - intros [= <-]. by eapply result_item_not_http.
  - apply IH.
Qed.

Lemma collect_items_length label_map probs idxs acc rs :
  collect_items label_map probs idxs acc = inr rs ->
  length rs = (length acc + length idxs)%nat.
Proof.
  revert acc. induction idxs as [|idx idxs IH]; intros acc; simpl.
  - intros [= <-]. lia.
  - destruct (result_item label_map probs idx) as [e|item]; [done|].
    intros Hrs. rewrite (IH _ Hrs), length_app. simpl. lia.
Qed.

Section LoopFacts.

Context `{B : Backend}.
Variable cfg : Config.
Variable g : Globals.
Variable tok : Tokenizer.
Variable mdl : TorchModule Weights.

Hypothesis Htok : tokenizer g = Some tok.
Hypothesis Hmdl : model g = Some mdl.

Lemma classify_batch_unfold (batch : list NliPair) :
  classify_batch cfg g batch
  = (batch_events cfg tok batch,
     collect_items (label_map g) (batch_probs cfg tok mdl batch)
       (seq 0 (length batch)) []).
Proof. unfold classify_batch. by rewrite Htok, Hmdl. Qed.

Lemma classify_batch_not_http (batch : list NliPair) e :
  outcome (classify_batch cfg g batch) = inl e -> ~ is_http e.
Proof. rewrite classify_batch_unfold. apply collect_items_not_http. Qed.

Lemma classify_batch_length (batch : list NliPair) rs :
  outcome (classify_batch cfg g batch) = inr rs -> length rs = length batch.
Proof.
  rewrite classify_batch_unfold. intros Hrs.
  apply collect_items_length in Hrs. by rewrite length_seq in Hrs.
Qed.

(** The batches that the start positions [starts] cut out of [all]. *)
Lemma classify_batches_not_http (all : list NliPair) (starts : list Z) acc e :
  outcome (classify_batches cfg g all starts acc) = inl e -> ~ is_http e.
Proof.
  revert acc. induction starts as [|i starts IH]; intros acc;
    cbn [classify_batches]; [done|].
  rewrite outcome_bind.
  destruct (outcome (classify_batch cfg g _)) as [e'|rs] eqn:Hb.
  - intros [= <-]. by eapply classify_batch_not_http.
  - apply IH.
Qed.

Lemma classify_batches_length (all : list NliPair) (starts : list Z) acc rs :
  outcome (classify_batches cfg g all starts acc) = inr rs ->
  length rs
  = (length acc
     + length (concat (map (fun i => Py.slice all i (i + BATCH_SIZE cfg)) starts)))%nat.
Proof.
  revert acc. induction starts as [|i starts IH]; intros acc;
    cbn [classify_batches map concat].
  - intros [= <-]. simpl. lia.
  - rewrite outcome_bind.
    destruct (outcome (classify_batch cfg g _)) as [e'|brs] eqn:Hb; [done|].
    intros Hrs. rewrite (IH _ Hrs), !length_app.
    rewrite (classify_batch_length _ _ Hb). lia.
Qed.

(** The events of a run of the loop that comes to its end. *)
Lemma classify_batches_trace (all : list NliPair) (starts : list Z) acc rs :
  outcome (classify_batches cfg g all starts acc) = inr rs ->
  trace (classify_batches cfg g all starts acc)
  = concat (map (fun i => batch_events cfg tok (Py.slice all i (i + BATCH_SIZE cfg)))
                starts).
Proof.
  revert acc. induction starts as [|i starts IH]; intros acc;
    cbn [classify_batches map concat]; [done|].
  rewrite outcome_bind, trace_bind.
  destruct (outcome (classify_batch cfg g _)) as [e'|brs] eqn:Hb; [done|].
  intros Hrs. rewrite (IH _ Hrs).
  by rewrite (classify_batch_trace cfg g tok mdl).
Qed.

(** The run stops at the first batch that raises. *)
Lemma classify_batches_stop (all : list NliPair) (before : list Z) (i : Z)
    (after : list Z) acc e :
  (forall j, j ∈ before ->
     exists rs, outcome (classify_batch cfg g (Py.slice all j (j + BATCH_SIZE cfg)))
                = inr rs) ->
  outcome (classify_batch cfg g (Py.slice all i (i + BATCH_SIZE cfg))) = inl e ->
  outcome (classify_batches cfg g all (before ++ i :: after) acc) = inl e /\
  trace (classify_batches cfg g all (before ++ i :: after) acc)
  = concat (map (fun j => batch_events cfg tok (Py.slice all j (j + BATCH_SIZE cfg)))
                (before ++ [i])).
Proof.
  intros Hbefore Hi. revert acc.
  induction before as [|j before IH]; intros acc;
    cbn [classify_batches map concat app].
  - rewrite outcome_bind, trace_bind, Hi.
    rewrite (classify_batch_trace cfg g tok mdl) by done.
    by rewrite app_nil_r.
  - rewrite outcome_bind, trace_bind.
    destruct (Hbefore j) as [rs Hrs]; [by left|]. rewrite Hrs.
    destruct (IH (fun k Hk => Hbefore k (list_elem_of_further _ _ _ Hk)) (acc ++ rs))
      as [-> ->].
    by rewrite (classify_batch_trace cfg g tok mdl).
Qed.

End LoopFacts.

Lemma trace_ret `{Backend} {A} (a : A) : trace (ret a) = [].
Proof. reflexivity. Qed.

Lemma bind_ret_l `{Backend} {A C} (a : A) (f : A -> M C) : bind (ret a) f = f a.
Proof. unfold bind, ret. by destruct (f a). Qed.

Lemma batch_count_ceil (n : nat) (step : Z) :
  0 < step -> Z.of_nat (batch_count n step) = (Z.of_nat n + step - 1) / step.
Proof.
  intros Hstep. unfold batch_count.
  destruct (Z.ltb_spec 0 (Z.of_nat n)) as [Hn|Hn].
  - pose proof (Z.div_pos (Z.of_nat n - 1) step ltac:(lia) Hstep).
    rewrite Z2Nat.id by lia.
    replace (Z.of_nat n + step - 1) with (Z.of_nat n - 1 + 1 * step) by lia.
    rewrite Z.div_add by lia. lia.
  - replace (Z.of_nat n) with 0 by lia. simpl.
    symmetry. apply Z.div_small. lia.
Qed.

Section RequestFacts.

Context `{B : Backend}.
Variable cfg : Config.
Variable g : Globals.
Variable tok : Tokenizer.
Variable mdl : TorchModule Weights.

Hypothesis Htok : tokenizer g = Some tok.
Hypothesis Hmdl : model g = Some mdl.

(** The start positions of the batches of a list. *)
Lemma classify_nli_loop (request : NliRequest) :
  0 < BATCH_SIZE cfg ->
  pairs request ≠ [] ->
  (length (pairs request) <= 100)%nat ->
  classify_nli cfg g request
  = (results <- classify_batches cfg g (pairs request)
                  (map (fun k => Z.of_nat k * BATCH_SIZE cfg)
                       (seq 0 (batch_count (length (pairs request)) (BATCH_SIZE cfg))))
                  [] ;;
     ret {| results := results |}).
Proof.
  intros Hstep Hne Hlen.
  rewrite (classify_nli_nonempty cfg g tok mdl) by done.
  destruct (Z.ltb_spec 100 (Z.of_nat (length (pairs request)))); [lia|].
  rewrite PyFacts.range_batches by done.
  unfold get_or. by rewrite bind_ret_l.
Qed.

Lemma slices_are_chunks (all : list NliPair) (m : nat) :
  0 < BATCH_SIZE cfg ->
  map (fun i => Py.slice all i (i + BATCH_SIZE cfg))
      (map (fun k => Z.of_nat k * BATCH_SIZE cfg) (seq 0 m))
  = map (chunk (Z.to_nat (BATCH_SIZE cfg)) all) (seq 0 m).
Proof.
  intros Hstep. rewrite map_map. apply map_ext. intros k. by apply slice_chunk.
Qed.

Lemma chunks_cover (all : list NliPair) :
  0 < BATCH_SIZE cfg ->
  concat (map (chunk (Z.to_nat (BATCH_SIZE cfg)) all)
              (seq 0 (batch_count (length all) (BATCH_SIZE cfg))))
  = all.
Proof.
  intros Hstep. apply concat_chunks.
  pose proof (PyFacts.batch_count_cover (length all) _ Hstep). nia.
Qed.

(** On loaded globals the answer is a body or a plain exception. *)
Lemma nli_loaded_status (request : NliRequest) :
  (length (pairs request) <= 100)%nat ->
  http_status (classify_nli cfg g request) = 200 \/
  http_status (classify_nli cfg g request) = 500.
Proof.
  intros Hlen.
  destruct (decide (pairs request = [])) as [Hnil|Hne].
  { left. unfold classify_nli. by rewrite Hmdl, Htok, Hnil. }
  rewrite (classify_nli_nonempty cfg g tok mdl) by done.
  destruct (Z.ltb_spec 100 (Z.of_nat (length (pairs request)))); [lia|].
  destruct (Py.range 0 _ (BATCH_SIZE cfg)) as [starts|]; [|by right].
  unfold get_or. rewrite bind_ret_l. unfold http_status. rewrite outcome_bind.
  destruct (outcome (classify_batches cfg g (pairs request) starts [])) as [e|rs] eqn:Hout.
  - right. apply (classify_batches_not_http cfg g tok mdl Htok Hmdl) in Hout.
    by destruct e.
  - by left.
Qed.

End RequestFacts.

Lemma nli_status_503_iff `{Backend} (cfg : Config) (g : Globals) (request : NliRequest) :
  http_status (classify_nli cfg g request) = 503 <->
  model g = None \/ tokenizer g = None.
Proof.
  split.
  - intros Hstatus.
    destruct (model g) as [mdl|] eqn:Hmdl; [|by left].
    destruct (tokenizer g) as [tok|] eqn:Htok; [|by right].
    destruct (Z.ltb_spec 100 (Z.of_nat (length (pairs request)))) as [Hlen|Hlen].
    + unfold classify_nli in Hstatus. rewrite Hmdl, Htok in Hstatus.
      destruct (pairs request) as [|p ps]; [done|].
      destruct (Z.ltb_spec 100 (Z.of_nat (length (p :: ps)))); [done | lia].
    + destruct (nli_loaded_status cfg g tok mdl Htok Hmdl request ltac:(lia)); lia.
  - intros Hnone. unfold classify_nli.
    destruct Hnone as [-> | ->]; [done | by destruct (model g)].
Qed.

Lemma nli_status_400_iff `{Backend} (cfg : Config) (g : Globals) (request : NliRequest) :
  http_status (classify_nli cfg g request) = 400 <->
  is_Some (model g) /\ is_Some (tokenizer g) /\ (100 < length (pairs request))%nat.
Proof.
  split.
  - intros Hstatus.
    destruct (model g) as [mdl|] eqn:Hmdl.
    2:{ unfold classify_nli in Hstatus. by rewrite Hmdl in Hstatus. }
    destruct (tokenizer g) as [tok|] eqn:Htok.
    2:{ unfold classify_nli in Hstatus. by rewrite Hmdl, Htok in Hstatus. }
    split; [done|]. split; [done|].
    destruct (Nat.le_gt_cases (length (pairs request)) 100) as [Hlen|Hlen]; [|done].
    destruct (nli_loaded_status cfg g tok mdl Htok Hmdl request Hlen); lia.
  - intros ([mdl Hmdl] & [tok Htok] & Hlen). unfold classify_nli. rewrite Hmdl, Htok.
    destruct (pairs request) as [|p ps] eqn:Hps; [simpl in Hlen; lia|].
    destruct (Z.ltb_spec 100 (Z.of_nat (length (p :: ps)))); [done | lia].
Qed.

(** X1: the status of a [POST /nli] answer is 200, 400, 500 or 503; it is
    503 exactly when the model or the tokenizer is missing, and 400 exactly when
    both are there and the request has more than 100 pairs (100 pairs are
    accepted).  Whatever goes wrong inside the batches is a 500. *)
Theorem nli_status_taxonomy `{Backend} (cfg : Config) (g : Globals)
    (request : NliRequest) :
  (http_status (classify_nli cfg g request) = 503 <->
   model g = None \/ tokenizer g = None) /\
  (http_status (classify_nli cfg g request) = 400 <->
   is_Some (model g) /\ is_Some (tokenizer g) /\ (100 < length (pairs request))%nat) /\
  (http_status (classify_nli cfg g request) = 200 \/
   http_status (classify_nli cfg g request) = 400 \/
   http_status (classify_nli cfg g request) = 500 \/
   http_status (classify_nli cfg g request) = 503).
Proof.
  split; [apply nli_status_503_iff|]. split; [apply nli_status_400_iff|].
  destruct (model g) as [mdl|] eqn:Hmdl.
  2:{ right; right; right. apply nli_status_503_iff. by left. }
  destruct (tokenizer g) as [tok|] eqn:Htok.
  2:{ right; right; right. apply nli_status_503_iff. by right. }
  destruct (Nat.le_gt_cases (length (pairs request)) 100) as [Hlen|Hlen].
  - destruct (nli_loaded_status cfg g tok mdl Htok Hmdl request Hlen); auto.
  - right; left. apply nli_status_400_iff. rewrite Hmdl, Htok. by repeat split.
Qed.

(** X2: whatever the tokenizer and the network return, a [POST /nli] answer
    that is a body has one result per pair, provided [BATCH_SIZE] is positive. *)
Theorem nli_answer_has_one_result_per_pair `{Backend} (cfg : Config) (g : Globals)
    (request : NliRequest) (response : NliResponse) :
  0 < BATCH_SIZE cfg ->
  outcome (classify_nli cfg g request) = inr response ->
  length (results response) = length (pairs request).
Proof.
  intros Hstep Hout.
  destruct (model g) as [mdl|] eqn:Hmdl.
  2:{ unfold classify_nli in Hout. by rewrite Hmdl in Hout. }
  destruct (tokenizer g) as [tok|] eqn:Htok.
  2:{ unfold classify_nli in Hout. by rewrite Hmdl, Htok in Hout. }
  destruct (decide (pairs request = [])) as [Hnil|Hne].
  { unfold classify_nli in Hout. rewrite Hmdl, Htok, Hnil in Hout.
    injection Hout as <-. by rewrite Hnil. }
  destruct (Nat.le_gt_cases (length (pairs request)) 100) as [Hlen|Hlen].
  2:{ assert (http_status (classify_nli cfg g request) = 400) as Hs.
      { apply nli_status_400_iff. rewrite Hmdl, Htok. by repeat split. }
      unfold http_status in Hs. by rewrite Hout in Hs. }
  rewrite (classify_nli_loop cfg g tok mdl Htok Hmdl request Hstep Hne Hlen) in Hout.
  rewrite outcome_bind in Hout.
  destruct (outcome (classify_batches _ _ _ _ _)) as [e|rs] eqn:Hrs; [done|].
  injection Hout as <-. simpl.
  rewrite (classify_batches_length cfg g tok mdl Htok Hmdl _ _ _ _ Hrs).
  rewrite slices_are_chunks, chunks_cover by done. done.
Qed.

Lemma nli_answer_has_one_result_per_pair_witness :
  length (results {| results := Toy.answers Toy.three_pairs |})
  = length (pairs (Toy.req Toy.three_pairs)).
Proof.
  apply (nli_answer_has_one_result_per_pair default_config Toy.started).
  - reflexivity.
  - reflexivity.
Defined.

(** X3: [BATCH_SIZE] is not checked.  On loaded globals, a request of 1 to
    100 pairs ends with [ValueError] and status 500 when [BATCH_SIZE] is 0, and
    is answered 200 with no result at all when [BATCH_SIZE] is negative; in
    both cases nothing is computed. *)
Theorem nli_batch_size_not_positive `{Backend} (cfg : Config) (g : Globals)
    (tok : Tokenizer) (mdl : TorchModule Weights) (request : NliRequest) :
  tokenizer g = Some tok -> model g = Some mdl ->
  pairs request ≠ [] -> (length (pairs request) <= 100)%nat ->
  BATCH_SIZE cfg <= 0 ->
  trace (classify_nli cfg g request) = [] /\
  (BATCH_SIZE cfg = 0 ->
   outcome (classify_nli cfg g request) = inl ValueError /\
   http_status (classify_nli cfg g request) = 500) /\
  (BATCH_SIZE cfg < 0 ->
   outcome (classify_nli cfg g request) = inr {| results := [] |} /\
   http_status (classify_nli cfg g request) = 200).
Proof.
  intros Htok Hmdl Hne Hlen Hstep.
  destruct (nli_nonpositive_batch_size cfg g tok mdl request Htok Hmdl Hne Hlen)
    as [Hzero Hneg].
  split; [|split].
  - destruct (Z.eq_dec (BATCH_SIZE cfg) 0) as [H0|H0].
    + by rewrite (Hzero H0).
    + by rewrite Hneg by lia.
  - intros H0. by rewrite (Hzero H0).
  - intros H0. by rewrite (Hneg H0).
Qed.

Lemma nli_batch_size_not_positive_witness :
  outcome (classify_nli Misconfigured.zero_step Toy.started (Toy.req Toy.three_pairs))
  = inl ValueError /\
  outcome (classify_nli Misconfigured.negative_step Toy.started (Toy.req Toy.three_pairs))
  = inr {| results := [] |}.
Proof.
  split.
  - apply (nli_batch_size_not_positive Misconfigured.zero_step Toy.started tt
             {| weights := tt; on_cuda := false; eval_mode := true |}
             (Toy.req Toy.three_pairs));
      first [reflexivity | discriminate | (vm_compute; lia) | (vm_compute; discriminate)].
  - apply (nli_batch_size_not_positive Misconfigured.negative_step Toy.started tt
             {| weights := tt; on_cuda := false; eval_mode := true |}
             (Toy.req Toy.three_pairs));
      first [reflexivity | discriminate | (vm_compute; lia) | (vm_compute; discriminate)].
Defined.

(** X4: when a [POST /nli] request is answered with a body, the tokenizer
    and the network have been called once per batch and in this order, on the
    consecutive batches of at most [BATCH_SIZE] pairs that make up the pair
    list; there are ceil(n / BATCH_SIZE) batches, none of them empty. *)
Theorem nli_calls_once_per_batch `{Backend} (cfg : Config) (g : Globals)
    (tok : Tokenizer) (mdl : TorchModule Weights)
    (request : NliRequest) (response : NliResponse) :
  tokenizer g = Some tok ->
  model g = Some mdl ->
  0 < BATCH_SIZE cfg ->
  outcome (classify_nli cfg g request) = inr response ->
  let b := Z.to_nat (BATCH_SIZE cfg) in
  let m := batch_count (length (pairs request)) (BATCH_SIZE cfg) in
  trace (classify_nli cfg g request)
  = concat (map (fun k => batch_events cfg tok (chunk b (pairs request) k)) (seq 0 m)) /\
  Z.of_nat m = (Z.of_nat (length (pairs request)) + BATCH_SIZE cfg - 1) / BATCH_SIZE cfg /\
  concat (map (chunk b (pairs request)) (seq 0 m)) = pairs request /\
  forall k, (k < m)%nat ->
    chunk b (pairs request) k ≠ [] /\ (length (chunk b (pairs request) k) <= b)%nat.
Proof.
  intros Htok Hmdl Hstep Hout b m.
  split; [|split; [by apply batch_count_ceil|split; [by apply chunks_cover|]]].
  - destruct (decide (pairs request = [])) as [Hnil|Hne].
    { unfold m. rewrite Hnil. unfold classify_nli. by rewrite Hmdl, Htok, Hnil. }
    destruct (Nat.le_gt_cases (length (pairs request)) 100) as [Hlen|Hlen].
    2:{ assert (http_status (classify_nli cfg g request) = 400) as Hs.
        { apply nli_status_400_iff. rewrite Hmdl, Htok. by repeat split. }
        unfold http_status in Hs. by rewrite Hout in Hs. }
    rewrite (classify_nli_loop cfg g tok mdl Htok Hmdl request Hstep Hne Hlen) in Hout |- *.
    rewrite outcome_bind in Hout. rewrite trace_bind.
    destruct (outcome (classify_batches _ _ _ _ _)) as [e|rs] eqn:Hrs; [done|].
    rewrite (classify_batches_trace cfg g tok mdl Htok Hmdl _ _ _ _ Hrs).
    rewrite trace_ret, app_nil_r.
    rewrite map_map. f_equal. apply map_ext. intros k.
    by rewrite slice_chunk.
  - intros k Hk.
    pose proof (PyFacts.batch_count_start (length (pairs request)) k _ Hstep Hk) as Hstart.
    split.
    + apply chunk_nonempty; [unfold b; lia | unfold b; nia].
    + rewrite chunk_length. lia.
Qed.

Lemma nli_calls_once_per_batch_witness :
  trace (classify_nli Faulty.config Faulty.started (Toy.req (take 4 Faulty.pairs10)))
  = batch_events (H := Faulty.backend) Faulty.config tt (take 4 Faulty.pairs10) /\
  batch_count 4 (BATCH_SIZE Faulty.config) = 1%nat.
Proof.
  destruct (nli_calls_once_per_batch Faulty.config Faulty.started tt
              {| weights := tt; on_cuda := true; eval_mode := true |}
              (Toy.req (take 4 Faulty.pairs10))
              {| results := match outcome (classify_nli Faulty.config Faulty.started
                                             (Toy.req (take 4 Faulty.pairs10))) with
                            | inr r => results r
                            | inl _ => []
                            end |})
    as (Htrace & _); try reflexivity.
  split; [|reflexivity]. rewrite Htrace. reflexivity.
Defined.

(** X5: when a batch raises, the request ends with that exception and
    status 500: the results of the batches before it are dropped, and no later
    batch reaches the tokenizer or the network. *)
Theorem nli_stops_at_failing_batch `{Backend} (cfg : Config) (g : Globals)
    (tok : Tokenizer) (mdl : TorchModule Weights)
    (request : NliRequest) (k : nat) (e : exn) :
  tokenizer g = Some tok ->
  model g = Some mdl ->
  0 < BATCH_SIZE cfg ->
  (length (pairs request) <= 100)%nat ->
  let b := Z.to_nat (BATCH_SIZE cfg) in
  (k < batch_count (length (pairs request)) (BATCH_SIZE cfg))%nat ->
  (forall j, (j < k)%nat ->
     exists rs, outcome (classify_batch cfg g (chunk b (pairs request) j)) = inr rs) ->
  outcome (classify_batch cfg g (chunk b (pairs request) k)) = inl e ->
  outcome (classify_nli cfg g request) = inl e /\
  http_status (classify_nli cfg g request) = 500 /\
  trace (classify_nli cfg g request)
  = concat (map (fun j => batch_events cfg tok (chunk b (pairs request) j))
                (seq 0 (S k))).
Proof.
  intros Htok Hmdl Hstep Hlen b Hk Hbefore Hfail.
  set (m := batch_count (length (pairs request)) (BATCH_SIZE cfg)) in *.
  assert (pairs request ≠ []) as Hne.
  { intros Hnil. unfold m, batch_count in Hk. rewrite Hnil in Hk. simpl in Hk. lia. }
  set (start := fun j : nat => Z.of_nat j * BATCH_SIZE cfg).
  assert (forall j, Py.slice (pairs request) (start j) (start j + BATCH_SIZE cfg)
                    = chunk b (pairs request) j) as Hslice.
  { intros j. by apply slice_chunk. }
  assert (map start (seq 0 m)
          = map start (seq 0 k) ++ start k :: map start (seq (S k) (m - S k))) as Hsplit.
  { replace m with (k + S (m - S k))%nat at 1 by lia.
    rewrite seq_app, map_app. simpl. done. }
  destruct (classify_batches_stop cfg g tok mdl Htok Hmdl (pairs request)
              (map start (seq 0 k)) (start k) (map start (seq (S k) (m - S k))) [] e)
    as [Hout Htrace].
  { intros i Hi. apply list_elem_of_In, in_map_iff in Hi as (j & <- & Hj).
    apply in_seq in Hj. rewrite Hslice. apply Hbefore. lia. }
  { by rewrite Hslice. }
  rewrite <- Hsplit in Hout, Htrace.
  rewrite (classify_nli_loop cfg g tok mdl Htok Hmdl request Hstep Hne Hlen).
  fold m. fold start.
  assert (~ is_http e) as Hplain.
  { by apply (classify_batch_not_http cfg g tok mdl Htok Hmdl _ _ Hfail). }
  split; [by rewrite outcome_bind, Hout|].
  split.
  - unfold http_status. rewrite outcome_bind, Hout. by destruct e.
  - rewrite trace_bind, Hout, Htrace.
    replace (map start (seq 0 k) ++ [start k]) with (map start (seq 0 (S k)))
      by (by rewrite seq_S, map_app).
    rewrite map_map. f_equal. apply map_ext. intros j. by rewrite Hslice.
Qed.

Lemma nli_stops_at_failing_batch_witness :
  outcome (classify_nli Faulty.config Faulty.started (Toy.req Faulty.pairs10))
  = inl IndexError /\
  http_status (classify_nli Faulty.config Faulty.started (Toy.req Faulty.pairs10)) = 500 /\
  length (trace (classify_nli Faulty.config Faulty.started (Toy.req Faulty.pairs10)))
  = 4%nat.
Proof.
  destruct (nli_stops_at_failing_batch Faulty.config Faulty.started tt
              {| weights := tt; on_cuda := true; eval_mode := true |}
              (Toy.req Faulty.pairs10) 1 IndexError)
    as (Hout & Hstatus & Htrace); try reflexivity.
  - vm_compute. lia.
  - vm_compute. lia.
  - intros [|j] Hj; [|lia]. eexists. reflexivity.
  - split; [exact Hout|]. split; [exact Hstatus|]. rewrite Htrace. reflexivity.
Defined.

(** ** Networks with another number of classes *)

Lemma size_delete_Some {A} (m : gmap nat A) (i : nat) (x : A) :
  m !! i = Some x -> size m = S (size (delete i m)).
Proof.
  intros Hi. rewrite <- (insert_delete_id m i x Hi) at 1.
  apply map_size_insert_None, lookup_delete_eq.
Qed.

(** A label map of the service has no key beyond 2. *)
Lemma label_permutation_keys (lm : gmap nat string) (i : nat) :
  label_permutation lm -> (3 <= i)%nat -> lm !! i = None.
Proof.
  intros (Hsize & l0 & l1 & l2 & H0 & H1 & H2 & _) Hi.
  rewrite (size_delete_Some lm 0 l0 H0) in Hsize.
  rewrite (size_delete_Some (delete 0%nat lm) 1 l1) in Hsize
    by (by rewrite lookup_delete_ne).
  rewrite (size_delete_Some (delete 1%nat (delete 0%nat lm)) 2 l2) in Hsize
    by (by rewrite !lookup_delete_ne).
  assert (delete 2%nat (delete 1%nat (delete 0%nat lm)) = ∅) as Hempty
    by (apply map_size_empty_inv; lia).
  apply (f_equal (fun m => m !! i)) in Hempty.
  rewrite !lookup_delete_ne, lookup_empty in Hempty by lia. done.
Qed.

Section ClassCount.

Variable lm : gmap nat string.
Hypothesis Hlm : label_permutation lm.

(** A row with fewer than three entries. *)
Lemma row_item_short (row : list Q) :
  (length row < 3)%nat -> row_item (Some lm) row = inl IndexError.
Proof.
  intros Hlen. destruct Hlm as (Hsize & l0 & l1 & l2 & H0 & H1 & H2 & _).
  unfold row_item, result_item. rewrite Hsize. cbn [seq prob_dict_from].
  rewrite H0, H1, H2. cbn [lookup list_lookup].
  destruct row as [|a [|b [|c row]]]; simpl in *; try done. lia.
Qed.

(** A row with at least three entries. *)
Lemma row_item_long (a b c : Q) (rest : list Q) (i : nat) :
  argmax (a :: b :: c :: rest) = Some i ->
  exists l0 l1 l2,
    lm !! 0%nat = Some l0 /\ lm !! 1%nat = Some l1 /\ lm !! 2%nat = Some l2 /\
    row_item (Some lm) (a :: b :: c :: rest)
    = match lm !! i, (a :: b :: c :: rest) !! i with
      | Some l, Some p =>
          inr {| label := l; confidence := p;
                 scores := Some (<[l2 := c]> (<[l1 := b]> (<[l0 := a]> ∅))) |}
      | None, _ => inl KeyError
      | Some _, None => inl IndexError
      end.
Proof.
  intros Hi. destruct Hlm as (Hsize & l0 & l1 & l2 & H0 & H1 & H2 & _).
  exists l0, l1, l2. repeat split; try done.
  unfold row_item, result_item. rewrite Hsize. cbn [seq prob_dict_from].
  rewrite H0, H1, H2. cbn [lookup list_lookup]. rewrite Hi.
  destruct (lm !! i) as [l|]; [|done].
  change (list_lookup i (a :: b :: c :: rest)) with ((a :: b :: c :: rest) !! i).
  by destruct ((a :: b :: c :: rest) !! i).
Qed.

End ClassCount.

(** X6: one turn of the result loop over a row that does not have three
    entries.  With fewer than three it raises [IndexError].  With more, a best
    class beyond the third raises [KeyError]; otherwise the turn succeeds, and
    the scores dictionary holds the three canonical labels with the first three
    entries of the row only, so that its total is theirs and not that of the
    row. *)
Theorem result_item_other_class_counts (lm : gmap nat string) (probs : Tensor)
    (idx : nat) (row : list Q) :
  label_permutation lm ->
  probs !! idx = Some row ->
  ((length row < 3)%nat -> result_item (Some lm) probs idx = inl IndexError) /\
  (forall i, argmax row = Some i -> (3 <= i)%nat ->
     result_item (Some lm) probs idx = inl KeyError) /\
  (forall i, (3 <= length row)%nat -> argmax row = Some i -> (i < 3)%nat ->
     exists item m,
       result_item (Some lm) probs idx = inr item /\
       lm !! i = Some (label item) /\
       row !! i = Some (confidence item) /\
       scores item = Some m /\
       dom m = canonical_labels /\
       (scores_total m == Qsum (take 3 row))%Q).
Proof.
  intros Hlm Hrow. rewrite (result_item_row _ _ _ _ Hrow).
  split; [by apply row_item_short|]. split.
  - intros i Hi Hge.
    destruct row as [|a [|b [|c rest]]].
    1-3: apply argmax_spec in Hi as (p & Hp & _);
         apply lookup_lt_Some in Hp; simpl in Hp; lia.
    destruct (row_item_long lm Hlm a b c rest i Hi) as (l0 & l1 & l2 & _ & _ & _ & ->).
    by rewrite (label_permutation_keys lm i Hlm Hge).
  - intros i Hlen Hi Hlt.
    destruct row as [|a [|b [|c rest]]]; simpl in Hlen; try lia.
    destruct (row_item_long lm Hlm a b c rest i Hi)
      as (l0 & l1 & l2 & H0 & H1 & H2 & ->).
    destruct Hlm as (_ & k0 & k1 & k2 & K0 & K1 & K2 & N01 & N02 & N12 & Hset).
    rewrite H0 in K0. rewrite H1 in K1. rewrite H2 in K2.
    injection K0 as <-. injection K1 as <-. injection K2 as <-.
    assert (exists l, lm !! i = Some l) as [l Hl].
    { destruct i as [|[|[|i]]]; [by eexists..|lia]. }
    destruct (lookup_lt_is_Some_2 (a :: b :: c :: rest) i) as [p Hp]; [simpl; lia|].
    rewrite Hl, Hp. eexists _, _. split; [reflexivity|]. simpl.
    split; [done|]. split; [done|]. split; [reflexivity|]. split.
    + rewrite !dom_insert_L, dom_empty_L, <- Hset.
      apply set_eq. intros x.
      rewrite !elem_of_union, !elem_of_singleton, elem_of_empty. tauto.
    + unfold scores_total.
      assert (map_to_list (<[l2:=c]> (<[l1:=b]> (<[l0:=a]> (∅ : gmap string Q))))
              ≡ₚ [(l2, c); (l1, b); (l0, a)]) as Hlist.
      { rewrite map_to_list_insert
          by (by rewrite !lookup_insert_ne, lookup_empty by done).
        rewrite map_to_list_insert by (by rewrite lookup_insert_ne, lookup_empty by done).
        rewrite map_to_list_insert by apply lookup_empty.
        by rewrite map_to_list_empty. }
      rewrite (Qsum_perm _ [c; b; a]) by (by rewrite Hlist).
      simpl. ring.
Qed.

Lemma result_item_other_class_counts_witness :
  result_item (Some LABEL_MAP) [[1 # 2; 1 # 2]%Q] 0%nat = inl IndexError /\
  result_item (Some LABEL_MAP) [[1 # 10; 2 # 10; 3 # 10; 4 # 10]%Q] 0%nat = inl KeyError /\
  exists item m,
    result_item (Some LABEL_MAP) [[4 # 10; 3 # 10; 2 # 10; 1 # 10]%Q] 0%nat = inr item /\
    scores item = Some m /\
    dom m = canonical_labels /\
    (scores_total m == 9 # 10)%Q.
Proof.
  split; [|split].
  - apply (result_item_other_class_counts LABEL_MAP [[1 # 2; 1 # 2]%Q] 0 [1 # 2; 1 # 2]%Q
             LABEL_MAP_permutation eq_refl).
    simpl. lia.
  - apply (result_item_other_class_counts LABEL_MAP
             [[1 # 10; 2 # 10; 3 # 10; 4 # 10]%Q] 0 [1 # 10; 2 # 10; 3 # 10; 4 # 10]%Q
             LABEL_MAP_permutation eq_refl) with (i := 3%nat); [reflexivity | lia].
  - destruct (result_item_other_class_counts LABEL_MAP
                [[4 # 10; 3 # 10; 2 # 10; 1 # 10]%Q] 0 [4 # 10; 3 # 10; 2 # 10; 1 # 10]%Q
                LABEL_MAP_permutation eq_refl) as (_ & _ & Hok).
    destruct (Hok 0%nat) as (item & m & Hitem & _ & _ & Hm & Hdom & Htotal);
      [simpl; lia | reflexivity | lia |].
    exists item, m. repeat split; try done.
    rewrite Htotal. reflexivity.
Defined.

(** ** Truncation *)

Lemma slice_map {A C} (f : A -> C) (l : list A) (lo hi : Z) :
  Py.slice (map f l) lo hi = map f (Py.slice l lo hi).
Proof.
  unfold Py.slice. rewrite length_map.
  change (map f) with (fmap (M := list) f). by rewrite fmap_take, fmap_drop.
Qed.

Lemma string_of_list_ascii_app (l1 l2 : list ascii) :
  string_of_list_ascii (l1 ++ l2)
  = (string_of_list_ascii l1 ++ string_of_list_ascii l2)%string.
Proof.
  induction l1 as [|c l1 IH]; [done|].
  simpl. by rewrite IH, PyFacts.app_String.
Qed.

Lemma string_of_list_ascii_length (l : list ascii) :
  String.length (string_of_list_ascii l) = length l.
Proof. induction l as [|c l IH]; simpl; [done | by rewrite IH]. Qed.

Lemma list_ascii_of_string_length (s : string) :
  length (list_ascii_of_string s) = String.length s.
Proof. induction s as [|c s IH]; simpl; [done | by rewrite IH]. Qed.

(** [s[:hi]] is the prefix of [s] whose length is the clamped bound. *)
Lemma str_prefix_spec (s : string) (hi : Z) :
  (exists rest, s = (Py.str_prefix s hi ++ rest)%string) /\
  String.length (Py.str_prefix s hi)
  = Z.to_nat (Py.clamp (Z.of_nat (String.length s)) hi).
Proof.
  unfold Py.str_prefix, Py.slice.
  rewrite list_ascii_of_string_length.
  change (Py.clamp (Z.of_nat (String.length s)) 0) with (Z.min 0 (Z.of_nat (String.length s))).
  rewrite Z.min_l by lia. rewrite Z.sub_0_r.
  change (Z.to_nat 0) with 0%nat. rewrite drop_0.
  set (n := Z.to_nat (Py.clamp (Z.of_nat (String.length s)) hi)).
  split.
  - exists (string_of_list_ascii (drop n (list_ascii_of_string s))).
    by rewrite <- string_of_list_ascii_app, take_drop, string_of_list_ascii_of_string.
  - rewrite string_of_list_ascii_length, length_take, list_ascii_of_string_length.
    unfold n, Py.clamp. destruct (Z.ltb_spec hi 0); lia.
Qed.

Lemma classify_batch_truncated `{Backend} (cfg : Config) (g : Globals)
    (b1 b2 : list NliPair) :
  map (truncated cfg) b1 = map (truncated cfg) b2 ->
  classify_batch cfg g b1 = classify_batch cfg g b2.
Proof.
  intros Heq.
  assert (map (fun p => Py.str_prefix (premise p) (MAX_LENGTH cfg)) b1
          = map (fun p => Py.str_prefix (premise p) (MAX_LENGTH cfg)) b2) as Hp.
  { apply (f_equal (map premise)) in Heq. by rewrite !map_map in Heq. }
  assert (map (fun p => Py.str_prefix (hypothesis p) (MAX_LENGTH cfg)) b1
          = map (fun p => Py.str_prefix (hypothesis p) (MAX_LENGTH cfg)) b2) as Hh.
  { apply (f_equal (map hypothesis)) in Heq. by rewrite !map_map in Heq. }
  assert (length b1 = length b2) as Hlen.
  { apply (f_equal length) in Heq. by rewrite !length_map in Heq. }
  unfold classify_batch, batch_probs, batch_inputs. by rewrite Hp, Hh, Hlen.
Qed.

Lemma classify_batches_truncated `{Backend} (cfg : Config) (g : Globals)
    (all1 all2 : list NliPair) (starts : list Z) acc :
  map (truncated cfg) all1 = map (truncated cfg) all2 ->
  classify_batches cfg g all1 starts acc = classify_batches cfg g all2 starts acc.
Proof.
  intros Heq. revert acc. induction starts as [|i starts IH]; intros acc;
    cbn [classify_batches]; [done|].
  rewrite (classify_batch_truncated cfg g (Py.slice all1 i (i + BATCH_SIZE cfg))
             (Py.slice all2 i (i + BATCH_SIZE cfg)))
    by (by rewrite <- !slice_map, Heq).
  unfold bind. destruct (classify_batch cfg g _) as [t [e|rs]]; [done|].
  by rewrite IH.
Qed.

(** X7: the characters of a premise or hypothesis beyond the first
    [MAX_LENGTH] never reach the tokenizer: two requests whose pairs agree once
    cut to [MAX_LENGTH] characters get the same answer, through the same calls. *)
Theorem nli_ignores_text_beyond_max_length `{Backend} (cfg : Config) (g : Globals)
    (r1 r2 : NliRequest) :
  map (truncated cfg) (pairs r1) = map (truncated cfg) (pairs r2) ->
  classify_nli cfg g r1 = classify_nli cfg g r2.
Proof.
  intros Heq.
  assert (length (pairs r1) = length (pairs r2)) as Hlen.
  { apply (f_equal length) in Heq. by rewrite !length_map in Heq. }
  unfold classify_nli. rewrite Hlen.
  destruct (model g) as [mdl|]; [|done]. destruct (tokenizer g) as [tok|]; [|done].
  destruct (pairs r1) as [|p1 ps1] eqn:H1; destruct (pairs r2) as [|p2 ps2] eqn:H2;
    try done.
  destruct (100 <? Z.of_nat (length (p2 :: ps2))); [done|].
  destruct (Py.range 0 _ (BATCH_SIZE cfg)) as [starts|]; [|done].
  unfold get_or. rewrite !bind_ret_l.
  by rewrite (classify_batches_truncated cfg g (p1 :: ps1) (p2 :: ps2)).
Qed.

Lemma nli_ignores_text_beyond_max_length_witness :
  classify_nli Faulty.config Faulty.started
    (Toy.req [Toy.pair "abcdefgh and more" "the same"])
  = classify_nli Faulty.config Faulty.started
      (Toy.req [Toy.pair "abcdefgh or less" "the same"]).
Proof.
  apply (nli_ignores_text_beyond_max_length Faulty.config Faulty.started).
  reflexivity.
Defined.

(** X8: the texts [classify_batch] hands to the tokenizer are, pair by pair,
    prefixes of the premise and of the hypothesis; with [MAX_LENGTH] at least 0
    a prefix has min(length, MAX_LENGTH) characters, so a text that fits is
    passed whole; with a negative [MAX_LENGTH] the last [-MAX_LENGTH] characters
    are cut off instead. *)
Theorem tokenizer_gets_bounded_prefixes `{Backend} (cfg : Config) (g : Globals)
    (tok : Tokenizer) (mdl : TorchModule Weights) (batch : list NliPair) :
  tokenizer g = Some tok ->
  model g = Some mdl ->
  trace (classify_batch cfg g batch)
  = [TokenizerCall (map premise (map (truncated cfg) batch))
                   (map hypothesis (map (truncated cfg) batch));
     ModelCall (batch_inputs cfg tok batch)] /\
  forall p,
    (exists rest, premise p = (premise (truncated cfg p) ++ rest)%string) /\
    (exists rest, hypothesis p = (hypothesis (truncated cfg p) ++ rest)%string) /\
    (0 <= MAX_LENGTH cfg ->
     String.length (premise (truncated cfg p))
     = (String.length (premise p) `min` Z.to_nat (MAX_LENGTH cfg))%nat /\
     String.length (hypothesis (truncated cfg p))
     = (String.length (hypothesis p) `min` Z.to_nat (MAX_LENGTH cfg))%nat) /\
    (MAX_LENGTH cfg < 0 ->
     String.length (premise (truncated cfg p))
     = (String.length (premise p) - Z.to_nat (- MAX_LENGTH cfg))%nat /\
     String.length (hypothesis (truncated cfg p))
     = (String.length (hypothesis p) - Z.to_nat (- MAX_LENGTH cfg))%nat).
Proof.
  intros Htok Hmdl. split.
  - rewrite (classify_batch_trace cfg g tok mdl batch Htok Hmdl). unfold truncated.
    by rewrite !map_map.
  - intros p. unfold truncated. simpl.
    destruct (str_prefix_spec (premise p) (MAX_LENGTH cfg)) as [Hp Hlp].
    destruct (str_prefix_spec (hypothesis p) (MAX_LENGTH cfg)) as [Hh Hlh].
    split; [done|]. split; [done|].
    rewrite Hlp, Hlh. unfold Py.clamp.
    split; intros HL; destruct (Z.ltb_spec (MAX_LENGTH cfg) 0); lia.
Qed.

Lemma tokenizer_gets_bounded_prefixes_witness :
  trace (classify_batch Faulty.config Faulty.started
           [Toy.pair "abcdefgh and more" "short"])
  = [@TokenizerCall Faulty.backend ["abcdefgh"] ["short"];
     @ModelCall Faulty.backend [("abcdefgh", "short")]].
Proof.
  destruct (tokenizer_gets_bounded_prefixes Faulty.config Faulty.started tt
              {| weights := tt; on_cuda := true; eval_mode := true |}
              [Toy.pair "abcdefgh and more" "short"] eq_refl eq_refl) as [Htrace _].
  rewrite Htrace. reflexivity.
Defined.

(** ** The two label orders *)

Lemma swapped_scores (a b c : Q) (k : string) :
  (<["contradiction" := c]> (<["neutral" := b]> (<["entailment" := a]>
     (∅ : gmap string Q)))) !! swap_label k
  = (<["entailment" := c]> (<["neutral" := b]> (<["contradiction" := a]>
     (∅ : gmap string Q)))) !! k.
Proof.
  unfold swap_label.
  destruct (String.eqb_spec k "entailment") as [->|Hent].
  { by rewrite lookup_insert_eq, lookup_insert_eq. }
  destruct (String.eqb_spec k "contradiction") as [->|Hcon].
  { rewrite !lookup_insert_ne by done. by rewrite !lookup_insert_eq. }
  destruct (decide (k = "neutral")) as [->|Hneu].
  { rewrite !(lookup_insert_ne _ _ "neutral") by done. by rewrite !lookup_insert_eq. }
  by rewrite !lookup_insert_ne, !lookup_empty by done.
Qed.

(** X12: one turn of the result loop under the two label maps.  Both turns
    raise the same exception or both succeed; when they succeed the confidence
    is the same, and label and scores are the same up to the exchange of
    entailment and contradiction, so that a neutral result is neutral under
    both maps. *)
Theorem label_maps_differ_by_a_swap (probs : Tensor) (idx : nat) :
  match result_item (Some DEBERTA_LABEL_MAP) probs idx,
        result_item (Some LABEL_MAP) probs idx with
  | inr d, inr l =>
      label l = swap_label (label d) /\
      label d = swap_label (label l) /\
      confidence l = confidence d /\
      exists md ml,
        scores d = Some md /\ scores l = Some ml /\
        forall k, ml !! swap_label k = md !! k
  | inl e1, inl e2 => e1 = e2
  | _, _ => False
  end.
Proof.
  destruct (probs !! idx) as [row|] eqn:Hrow.
  2:{ unfold result_item.
      change (size DEBERTA_LABEL_MAP) with 3%nat. change (size LABEL_MAP) with 3%nat.
      cbn [seq prob_dict_from].
      change (DEBERTA_LABEL_MAP !! 0%nat) with (Some "contradiction").
      change (LABEL_MAP !! 0%nat) with (Some "entailment").
      by rewrite Hrow. }
  rewrite !(result_item_row _ _ _ _ Hrow).
  destruct (decide (length row < 3)%nat) as [Hshort|Hlong].
  { rewrite (row_item_short _ DEBERTA_LABEL_MAP_permutation _ Hshort).
    by rewrite (row_item_short _ LABEL_MAP_permutation _ Hshort). }
  destruct row as [|a [|b [|c rest]]]; simpl in Hlong; try lia.
  destruct (argmax (a :: b :: c :: rest)) as [i|] eqn:Hi; [|done].
  destruct (row_item_long _ DEBERTA_LABEL_MAP_permutation a b c rest i Hi)
    as (d0 & d1 & d2 & D0 & D1 & D2 & ->).
  destruct (row_item_long _ LABEL_MAP_permutation a b c rest i Hi)
    as (l0 & l1 & l2 & L0 & L1 & L2 & ->).
  vm_compute in D0, D1, D2, L0, L1, L2.
  injection D0 as <-. injection D1 as <-. injection D2 as <-.
  injection L0 as <-. injection L1 as <-. injection L2 as <-.
  destruct (decide (3 <= i)%nat) as [Hge|Hlt].
  { rewrite (label_permutation_keys _ i DEBERTA_LABEL_MAP_permutation Hge).
    by rewrite (label_permutation_keys _ i LABEL_MAP_permutation Hge). }
  destruct ((a :: b :: c :: rest) !! i) as [p|] eqn:Hp.
  2:{ apply lookup_ge_None in Hp. simpl in Hp. lia. }
  assert (exists ld ll, DEBERTA_LABEL_MAP !! i = Some ld /\ LABEL_MAP !! i = Some ll /\
                        ll = swap_label ld /\ ld = swap_label ll) as (ld & ll & -> & -> & Hs1 & Hs2).
  { destruct i as [|[|[|i]]]; [| | |lia]; eexists _, _; repeat split. }
  split; [done|]. split; [done|]. split; [done|].
  eexists _, _. split; [reflexivity|]. split; [reflexivity|].
  simpl. apply swapped_scores.
Qed.

(** ** Which requests compute *)

(** X13: the tokenizer and the network are reached only through a
    [POST /nli] request that passes every check: model and tokenizer loaded,
    between 1 and 100 pairs, positive [BATCH_SIZE].  The health query, the root
    query and every rejected classification request leave them alone. *)
Theorem compute_only_for_accepted_nli `{Backend} (cfg : Config) (g : Globals)
    (req : HttpRequest) :
  trace (handle cfg g req) ≠ [] ->
  exists request,
    req = POST_nli request /\
    is_Some (model g) /\ is_Some (tokenizer g) /\
    pairs request ≠ [] /\ (length (pairs request) <= 100)%nat /\
    0 < BATCH_SIZE cfg.
Proof.
  destruct req as [| |request]; simpl.
  - unfold health_check. by destruct (model g).
  - done.
  - intros Htrace. exists request. split; [done|].
    rewrite trace_bind in Htrace.
    assert (trace (classify_nli cfg g request) ≠ []) as Hnli.
    { destruct (outcome (classify_nli cfg g request)); [done|].
      by rewrite trace_ret, app_nil_r in Htrace. }
    clear Htrace. unfold classify_nli in Hnli.
    destruct (model g) as [mdl|]; [|done]. destruct (tokenizer g) as [tok|]; [|done].
    split; [by eexists|]. split; [by eexists|].
    destruct (pairs request) as [|p ps] eqn:Hps; [done|].
    split; [done|].
    destruct (Z.ltb_spec 100 (Z.of_nat (length (p :: ps)))) as [|Hlen]; [done|].
    split; [lia|].
    destruct (Z.lt_trichotomy (BATCH_SIZE cfg) 0) as [Hneg|[Hzero|Hpos]]; [| |done].
    + rewrite (range_negative_step (length (p :: ps))) in Hnli by done. done.
    + rewrite Hzero in Hnli. done.
Qed.

Lemma compute_only_for_accepted_nli_witness :
  exists request,
    POST_nli (Toy.req Toy.three_pairs) = POST_nli request /\
    is_Some (model Toy.started) /\ is_Some (tokenizer Toy.started) /\
    pairs request ≠ [] /\ (length (pairs request) <= 100)%nat /\
    0 < BATCH_SIZE default_config.
Proof.
  apply (compute_only_for_accepted_nli default_config Toy.started
           (POST_nli (Toy.req Toy.three_pairs))).
  discriminate.
Defined.

(** ** Requests cut at a batch boundary *)

Lemma gather_app {E C} (rs1 rs2 : list (E + list C)) :
  gather (rs1 ++ rs2)
  = match gather rs1 with
    | inl e => inl e
    | inr x => prepend x (gather rs2)
    end.
Proof.
  induction rs1 as [|[e|x] rs1 IH]; simpl; [by rewrite prepend_nil|done|].
  rewrite IH. destruct (gather rs1) as [e|y]; [done|].
  destruct (gather rs2) as [e|z]; simpl; [done|]. by rewrite app_assoc.
Qed.

Lemma prepend_prepend {E C} (a b : list C) (r : E + list C) :
  prepend a (prepend b r) = prepend (a ++ b) r.
Proof. destruct r; simpl; [done | by rewrite app_assoc]. Qed.

Lemma classify_batches_gather `{Backend} (cfg : Config) (g : Globals)
    (all : list NliPair) (starts : list Z) acc :
  outcome (classify_batches cfg g all starts acc)
  = prepend acc
      (gather (map (fun i => outcome (classify_batch cfg g
                                        (Py.slice all i (i + BATCH_SIZE cfg))))
                   starts)).
Proof.
  revert acc. induction starts as [|i starts IH]; intros acc;
    cbn [classify_batches map gather].
  - unfold outcome. simpl. by rewrite app_nil_r.
  - rewrite outcome_bind.
    destruct (outcome (classify_batch cfg g _)) as [e|rs]; [done|].
    by rewrite IH, prepend_prepend.
Qed.

(** The answer on loaded globals, batch by batch. *)
Lemma classify_nli_gather `{Backend} (cfg : Config) (g : Globals)
    (tok : Tokenizer) (mdl : TorchModule Weights) (request : NliRequest) :
  tokenizer g = Some tok -> model g = Some mdl ->
  0 < BATCH_SIZE cfg ->
  (length (pairs request) <= 100)%nat ->
  outcome (classify_nli cfg g request)
  = match gather (map (fun k => outcome (classify_batch cfg g
                                  (chunk (Z.to_nat (BATCH_SIZE cfg)) (pairs request) k)))
                      (seq 0 (batch_count (length (pairs request)) (BATCH_SIZE cfg)))) with
    | inl e => inl e
    | inr rs => inr {| results := rs |}
    end.
Proof.
  intros Htok Hmdl Hstep Hlen.
  destruct (decide (pairs request = [])) as [Hnil|Hne].
  { unfold classify_nli. by rewrite Hmdl, Htok, Hnil. }
  rewrite (classify_nli_loop cfg g tok mdl Htok Hmdl request Hstep Hne Hlen).
  rewrite outcome_bind, classify_batches_gather, prepend_nil, map_map.
  rewrite (map_ext _ (fun k => outcome (classify_batch cfg g
             (chunk (Z.to_nat (BATCH_SIZE cfg)) (pairs request) k)))).
  2:{ intros k. by rewrite slice_chunk. }
  by destruct (gather _).
Qed.

Lemma chunk_app_l {A} (b : nat) (l1 l2 : list A) (k j : nat) :
  length l1 = (k * b)%nat -> (j < k)%nat ->
  chunk b (l1 ++ l2) j = chunk b l1 j.
Proof.
  intros Hlen Hj. unfold chunk.
  rewrite drop_app_le by nia. rewrite take_app_le; [done|].
  rewrite length_drop. nia.
Qed.

Lemma chunk_app_r {A} (b : nat) (l1 l2 : list A) (k j : nat) :
  length l1 = (k * b)%nat ->
  chunk b (l1 ++ l2) (k + j) = chunk b l2 j.
Proof.
  intros Hlen. unfold chunk.
  rewrite drop_app_ge by nia. do 2 f_equal. nia.
Qed.

(** X14: a pair list cut in two at a multiple of [BATCH_SIZE] can be sent as
    two requests: the answer to the whole list is the exception of the first
    part, else that of the second part, else the results of the first part
    followed by those of the second. *)
Theorem nli_splits_at_batch_boundaries `{Backend} (cfg : Config) (g : Globals)
    (r r1 r2 : NliRequest) (k : nat) :
  0 < BATCH_SIZE cfg ->
  pairs r = pairs r1 ++ pairs r2 ->
  length (pairs r1) = (k * Z.to_nat (BATCH_SIZE cfg))%nat ->
  (length (pairs r) <= 100)%nat ->
  outcome (classify_nli cfg g r)
  = match outcome (classify_nli cfg g r1) with
    | inl e => inl e
    | inr a1 =>
        match outcome (classify_nli cfg g r2) with
        | inl e => inl e
        | inr a2 => inr {| results := results a1 ++ results a2 |}
        end
    end.
Proof.
  intros Hstep Hpairs Hk Hlen.
  destruct (model g) as [mdl|] eqn:Hmdl.
  2:{ unfold classify_nli. by rewrite Hmdl. }
  destruct (tokenizer g) as [tok|] eqn:Htok.
  2:{ unfold classify_nli. by rewrite Hmdl, Htok. }
  assert (length (pairs r) = length (pairs r1) + length (pairs r2))%nat as Hsum
    by (by rewrite Hpairs, length_app).
  set (b := Z.to_nat (BATCH_SIZE cfg)) in *.
  rewrite !(classify_nli_gather cfg g tok mdl) by (try done; lia).
  fold b.
  assert (batch_count (length (pairs r)) (BATCH_SIZE cfg)
          = k + batch_count (length (pairs r2)) (BATCH_SIZE cfg))%nat as ->.
  { apply Nat2Z.inj. rewrite Nat2Z.inj_add, !batch_count_ceil by done.
    rewrite Hsum, Hk, Nat2Z.inj_add, Nat2Z.inj_mul. unfold b. rewrite Z2Nat.id by lia.
    replace (Z.of_nat k * BATCH_SIZE cfg + Z.of_nat (length (pairs r2)) + BATCH_SIZE cfg - 1)
      with (Z.of_nat k * BATCH_SIZE cfg + (Z.of_nat (length (pairs r2)) + BATCH_SIZE cfg - 1))
      by lia.
    rewrite Z.div_add_l by lia. done. }
  assert (batch_count (length (pairs r1)) (BATCH_SIZE cfg) = k) as ->.
  { apply Nat2Z.inj. rewrite batch_count_ceil by done.
    rewrite Hk, Nat2Z.inj_mul. unfold b. rewrite Z2Nat.id by lia.
    replace (Z.of_nat k * BATCH_SIZE cfg + BATCH_SIZE cfg - 1)
      with (Z.of_nat k * BATCH_SIZE cfg + (BATCH_SIZE cfg - 1)) by lia.
    rewrite Z.div_add_l by lia. rewrite Z.div_small by lia. lia. }
  rewrite seq_app, map_app, gather_app. simpl (0 + k)%nat.
  rewrite (map_ext_in _ (fun j => outcome (classify_batch cfg g (chunk b (pairs r1) j)))
             (seq 0 k)).
  2:{ intros j Hj. apply in_seq in Hj. rewrite Hpairs.
      by rewrite (chunk_app_l b _ _ k j) by (try done; lia). }
  destruct (gather (map _ (seq 0 k))) as [e|rs1]; [done|].
  set (m2 := batch_count (length (pairs r2)) (BATCH_SIZE cfg)).
  replace (seq k m2) with (map (Nat.add k) (seq 0 m2)).
  2:{ change (map (Nat.add k) (seq 0 m2)) with (Nat.add k <$> seq 0 m2).
      rewrite fmap_add_seq. f_equal. lia. }
  rewrite map_map.
  rewrite (map_ext _ (fun j => outcome (classify_batch cfg g (chunk b (pairs r2) j)))).
  2:{ intros j. rewrite Hpairs. by rewrite (chunk_app_r b _ _ k j). }
  by destruct (gather _).
Qed.

Lemma nli_splits_at_batch_boundaries_witness :
  outcome (classify_nli default_config Toy.started (Toy.req (Toy.sample 40)))
  = inr {| results := Toy.answers (take 32 (Toy.sample 40))
                      ++ Toy.answers (drop 32 (Toy.sample 40)) |}.
Proof.
  rewrite (nli_splits_at_batch_boundaries default_config Toy.started
             (Toy.req (Toy.sample 40))
             (Toy.req (take 32 (Toy.sample 40)))
             (Toy.req (drop 32 (Toy.sample 40))) 2).
  - reflexivity.
  - reflexivity.
  - reflexivity.
  - reflexivity.
  - vm_compute. lia.
Defined.

(** ** Start-up *)

(** The four places where [load_model] can stop. *)
Lemma load_model_failure `{Backend} (cfg : Config) (g0 g : Globals) (e : exn) :
  load_model cfg g0 = (g, inl e) ->
  label_map g = label_map g0 /\
  ((AutoTokenizer_from_pretrained (NLI_MODEL cfg) = None /\
    e = tokenizer_load_error (NLI_MODEL cfg) /\ g = g0) \/
   (AutoModel_from_pretrained (NLI_MODEL cfg) = None /\
    e = model_load_error (NLI_MODEL cfg) /\
    is_Some (tokenizer g) /\ model g = model g0) \/
   (exists w mdl,
      AutoModel_from_pretrained (NLI_MODEL cfg) = Some w /\
      is_Some (tokenizer g) /\ model g = Some mdl /\
      weights mdl = w /\ eval_mode mdl = false /\
      ((use_cuda cfg = true /\ module_cuda_error w = Some e) \/
       module_eval_error w = Some e))).
Proof.
  unfold load_model.
  destruct (AutoTokenizer_from_pretrained _) as [tok|].
  2:{ intros [= <- <-]. split; [done|]. left. by repeat split. }
  destruct (AutoModel_from_pretrained _) as [w|].
  2:{ intros [= <- <-]. split; [done|]. right; left. repeat split; by eauto. }
  destruct (use_cuda cfg) eqn:Hcuda.
  - destruct (module_cuda_error w) as [e1|] eqn:Hmove.
    { intros [= <- <-]. split; [done|]. right; right.
      eexists _, _. repeat split; eauto. }
    destruct (module_eval_error w) as [e2|] eqn:Heval; [|done].
    intros [= <- <-]. split; [done|]. right; right.
    eexists _, _. repeat split; eauto.
  - destruct (module_eval_error w) as [e2|] eqn:Heval; [|done].
    intros [= <- <-]. split; [done|]. right; right.
    eexists _, _. repeat split; eauto.
Qed.

(** Whatever [load_model] leaves at start-up, a model comes with a
    tokenizer. *)
Lemma load_model_leaves `{Backend} (cfg : Config) (g : Globals) (r : exn + unit) :
  load_model cfg initial_globals = (g, r) ->
  model g = None \/ (is_Some (model g) /\ is_Some (tokenizer g)).
Proof.
  intros Hload. destruct r as [e|[]].
  - destruct (load_model_failure cfg _ _ _ Hload)
      as (_ & [(_ & _ & ->) | [(_ & _ & _ & ->) | (w & mdl & _ & Htok & Hmdl & _)]]).
    + by left.
    + by left.
    + right. by rewrite Hmdl.
  - right. destruct (load_model_ok _ _ _ Hload) as (tok & w & _ & _ & ->).
    split; by eexists.
Qed.

(** Without a label map the first turn of the result loop raises. *)
Lemma classify_batch_without_label_map `{Backend} (cfg : Config) (g : Globals)
    (batch : list NliPair) :
  is_Some (tokenizer g) -> is_Some (model g) -> label_map g = None ->
  batch ≠ [] ->
  outcome (classify_batch cfg g batch) = inl TypeError.
Proof.
  intros [tok Htok] [mdl Hmdl] Hlm Hne.
  rewrite (classify_batch_unfold cfg g tok mdl Htok Hmdl), Hlm.
  by destruct batch.
Qed.

(** X9: after a successful [load_model] the network is in inference mode and
    sits on the accelerator exactly when [DEVICE] is "cuda" and an accelerator
    is there (any other setting, or no accelerator, leaves it on the
    processor); and [classify_batch] moves the tokenized inputs to the
    accelerator exactly when the network sits there. *)
Theorem inputs_follow_the_network `{Backend} (cfg : Config) (g0 g : Globals) :
  load_model cfg g0 = (g, inr tt) ->
  exists tok mdl,
    tokenizer g = Some tok /\ model g = Some mdl /\
    eval_mode mdl = true /\
    (on_cuda mdl = true <-> DEVICE cfg = "cuda" /\ cuda_is_available = true) /\
    forall batch,
      batch_inputs cfg tok batch
      = let inputs :=
          tokenizer_call tok
            (map (fun p => Py.str_prefix (premise p) (MAX_LENGTH cfg)) batch)
            (map (fun p => Py.str_prefix (hypothesis p) (MAX_LENGTH cfg)) batch)
            (MAX_LENGTH cfg) in
        if on_cuda mdl then inputs_cuda inputs else inputs.
Proof.
  intros Hload. destruct (load_model_ok _ _ _ Hload) as (tok & w & _ & _ & ->).
  eexists _, _. split; [reflexivity|]. split; [reflexivity|]. split; [done|].
  split; [|done]. simpl. unfold use_cuda.
  rewrite andb_true_iff, bool_decide_eq_true. done.
Qed.

Lemma inputs_follow_the_network_witness :
  exists mdl,
    model Faulty.started = Some mdl /\ on_cuda mdl = true /\
    model Toy.started_cuda = Some {| weights := tt; on_cuda := false; eval_mode := true |}.
Proof.
  destruct (inputs_follow_the_network Faulty.config Faulty.fresh Faulty.started eq_refl)
    as (tok & mdl & _ & Hmdl & _ & Hcuda & _).
  exists mdl. split; [exact Hmdl|]. split; [|reflexivity].
  apply Hcuda. split; reflexivity.
Defined.

(** X10: when [load_model] fails at start-up, [lifespan] ends with the same
    exception and no request is served; the label map is still [None], so the
    globals left behind can never yield a classification result (a body they
    return has no result in it); and when it was one of the two
    [from_pretrained] calls that failed, the model is still [None] and both
    [POST /nli] and [GET /health] answer 503. *)
Theorem failed_startup_gives_no_results `{Backend} (cfg : Config) (g : Globals) (e : exn) :
  load_model cfg initial_globals = (g, inl e) ->
  label_map g = None /\
  (forall reqs, lifespan cfg reqs = inl e) /\
  (forall request response,
     outcome (classify_nli cfg g request) = inr response -> results response = []) /\
  (AutoTokenizer_from_pretrained (NLI_MODEL cfg) = None \/
   AutoModel_from_pretrained (NLI_MODEL cfg) = None ->
   model g = None /\
   (forall request, http_status (classify_nli cfg g request) = 503) /\
   http_status (health_check cfg g) = 503).
Proof.
  intros Hload.
  destruct (load_model_failure cfg _ _ _ Hload) as [Hlm Hcases]. simpl in Hlm.
  split; [done|]. split; [|split].
  - intros reqs. unfold lifespan. by rewrite Hload.
  - intros request response Hout.
    destruct (load_model_leaves cfg g _ Hload) as [Hnone | [[mdl Hmdl] [tok Htok]]].
    { assert (http_status (classify_nli cfg g request) = 503) as Hs
        by (apply nli_status_503_iff; by left).
      unfold http_status in Hs. by rewrite Hout in Hs. }
    destruct (decide (pairs request = [])) as [Hnil|Hne].
    { unfold classify_nli in Hout. rewrite Hmdl, Htok, Hnil in Hout.
      by injection Hout as <-. }
    destruct (Nat.le_gt_cases (length (pairs request)) 100) as [Hlen|Hlen].
    2:{ assert (http_status (classify_nli cfg g request) = 400) as Hs.
        { apply nli_status_400_iff. rewrite Hmdl, Htok. by repeat split. }
        unfold http_status in Hs. by rewrite Hout in Hs. }
    destruct (Z.lt_trichotomy (BATCH_SIZE cfg) 0) as [Hneg|[Hzero|Hpos]].
    + destruct (nli_nonpositive_batch_size cfg g tok mdl request Htok Hmdl Hne Hlen)
        as [_ Hempty].
      rewrite (Hempty Hneg) in Hout. by injection Hout as <-.
    + destruct (nli_nonpositive_batch_size cfg g tok mdl request Htok Hmdl Hne Hlen)
        as [Hraise _].
      by rewrite (Hraise Hzero) in Hout.
    + rewrite (classify_nli_gather cfg g tok mdl request Htok Hmdl Hpos Hlen) in Hout.
      assert (exists m, batch_count (length (pairs request)) (BATCH_SIZE cfg) = S m)
        as [m Hm].
      { pose proof (PyFacts.batch_count_cover (length (pairs request)) _ Hpos).
        destruct (batch_count _ _) as [|m]; [|by eexists].
        destruct (pairs request); [done | simpl in *; lia]. }
      rewrite Hm in Hout. rewrite <- cons_seq in Hout. cbn [map gather] in Hout.
      rewrite (classify_batch_without_label_map cfg g) in Hout; [done|by eexists..|done|].
      apply chunk_nonempty; [lia|]. destruct (pairs request); [done | simpl; lia].
  - intros Hfailed.
    assert (model g = None) as Hmdl.
    { destruct Hcases as [(_ & _ & ->) | [(_ & _ & _ & ->) | (w & mdl & Hw & _)]];
        [done | done |].
      destruct Hfailed as [Htok | Hnet]; [|congruence].
      revert Hload. unfold load_model. rewrite Htok. by intros [= <- _]. }
    split; [done|]. split.
    + intros request. apply nli_status_503_iff. by left.
    + unfold health_check. by rewrite Hmdl.
Qed.

Lemma failed_startup_gives_no_results_witness :
  lifespan (B := NoMemory.backend) Toy.cuda_config [GET_health; GET_root]
  = inl RuntimeError /\
  label_map (fst (load_model Toy.cuda_config NoMemory.fresh)) = None /\
  lifespan (B := Offline.backend) default_config [GET_health; GET_root]
  = inl ValueError /\
  http_status (health_check default_config (fst (load_model default_config Offline.fresh)))
  = 503.
Proof.
  destruct (failed_startup_gives_no_results Toy.cuda_config
              (fst (load_model Toy.cuda_config NoMemory.fresh)) RuntimeError eq_refl)
    as (Hlm & Hrun & _).
  destruct (failed_startup_gives_no_results default_config
              (fst (load_model default_config Offline.fresh)) ValueError eq_refl)
    as (_ & Hoff & _ & Hloader).
  split; [apply Hrun|]. split; [exact Hlm|]. split; [apply Hoff|].
  apply Hloader. right. reflexivity.
Defined.

(** X11: on the globals [load_model] leaves behind at start-up, whether it
    succeeded or failed, the health query and the classification endpoint agree
    on readiness: [GET /health] answers 503 exactly when [POST /nli] does, and
    200 otherwise. *)
Theorem health_agrees_with_nli `{Backend} (cfg : Config) (g : Globals)
    (r : exn + unit) (request : NliRequest) :
  load_model cfg initial_globals = (g, r) ->
  (http_status (health_check cfg g) = 503 <->
   http_status (classify_nli cfg g request) = 503) /\
  (http_status (health_check cfg g) = 200 \/ http_status (health_check cfg g) = 503).
Proof.
  intros Hload.
  pose proof (load_model_leaves cfg g r Hload) as Hstate.
  rewrite nli_status_503_iff.
  destruct Hstate as [Hmdl | [[mdl Hmdl] [tok Htok]]].
  - unfold health_check. rewrite Hmdl. split; [|by right]. split; [by left | done].
  - unfold health_check. rewrite Hmdl, Htok. split; [|by left].
    split; [done | by intros [|]].
Qed.

Lemma health_agrees_with_nli_witness :
  http_status (health_check default_config (fst (load_model default_config Offline.fresh)))
  = 503 /\
  http_status (classify_nli default_config (fst (load_model default_config Offline.fresh))
                 (Toy.req Toy.three_pairs)) = 503.
Proof.
  destruct (health_agrees_with_nli default_config
              (fst (load_model default_config Offline.fresh)) (inl ValueError)
              (Toy.req Toy.three_pairs) eq_refl) as [Hiff _].
  split; [reflexivity|]. apply Hiff. reflexivity.
Defined.

(** ** Batches against the unsplit list *)

Module PaddedFacts.

Lemma batch_probs_length (cfg : Config) (tok : unit) (mdl : TorchModule unit)
    (batch : list NliPair) :
  length (batch_probs (B := Padded.backend) cfg tok mdl batch) = length batch.
Proof.
  unfold batch_probs, batch_inputs. simpl.
  assert (forall e : nat * list (string * string),
            (if use_cuda (B := Padded.backend) cfg then e else e) = e) as ->
    by (by destruct (use_cuda _)).
  simpl. rewrite !length_map, ToyFacts.zip_maps. by rewrite length_map.
Qed.

Lemma padded_one_row_per_item cfg tok mdl :
  one_row_per_item (H := Padded.backend) cfg tok mdl.
Proof. intros batch _. apply batch_probs_length. Qed.

Lemma padded_three_classes cfg tok mdl :
  three_classes (H := Padded.backend) cfg tok mdl.
Proof.
  intros batch row _ Hrow. unfold batch_probs in Hrow. simpl in Hrow.
  apply list_elem_of_In, in_map_iff in Hrow as (logits & <- & _).
  by destruct (ToyFacts.softmax_row_cases logits) as [-> | [-> | ->]].
Qed.

End PaddedFacts.

(** C5, as the code has it: for a positive [BATCH_SIZE], the result list of
    an accepted request is the concatenation, in batch order, of the result
    lists [classify_batch] gives for the consecutive batches of [BATCH_SIZE]
    pairs that make up the pair list (or the first exception among them).  It
    is what [classify_batch] gives for the whole list as one batch when the
    list fits in one batch, and when the network scores each item by itself. *)
Theorem nli_concatenates_its_batches `{Backend} (cfg : Config) (g : Globals)
    (tok : Tokenizer) (mdl : TorchModule Weights) (request : NliRequest) :
  tokenizer g = Some tok ->
  model g = Some mdl ->
  0 < BATCH_SIZE cfg ->
  (length (pairs request) <= 100)%nat ->
  let b := Z.to_nat (BATCH_SIZE cfg) in
  let m := batch_count (length (pairs request)) (BATCH_SIZE cfg) in
  let unsplit :=
    match outcome (classify_batch cfg g (pairs request)) with
    | inl e => inl e
    | inr rs => inr {| results := rs |}
    end in
  concat (map (chunk b (pairs request)) (seq 0 m)) = pairs request /\
  outcome (classify_nli cfg g request)
  = match gather (map (fun k => outcome (classify_batch cfg g (chunk b (pairs request) k)))
                      (seq 0 m)) with
    | inl e => inl e
    | inr rs => inr {| results := rs |}
    end /\
  ((length (pairs request) <= b)%nat -> outcome (classify_nli cfg g request) = unsplit) /\
  (one_row_per_item cfg tok mdl -> itemwise cfg tok mdl ->
   outcome (classify_nli cfg g request) = unsplit).
Proof.
  intros Htok Hmdl Hstep Hlen b m unsplit.
  assert (outcome (classify_nli cfg g request)
          = match gather (map (fun k => outcome (classify_batch cfg g
                                              (chunk b (pairs request) k)))
                              (seq 0 m)) with
            | inl e => inl e
            | inr rs => inr {| results := rs |}
            end) as Hgather
    by (by apply (classify_nli_gather cfg g tok mdl)).
  assert ((length (pairs request) <= b)%nat ->
          outcome (classify_nli cfg g request) = unsplit) as Hone.
  { intros Hfit. rewrite Hgather. unfold unsplit.
    destruct (decide (pairs request = [])) as [Hnil|Hne].
    { unfold m. rewrite Hnil. simpl.
      by rewrite (classify_batch_unfold cfg g tok mdl Htok Hmdl). }
    assert (m = 1%nat) as ->.
    { apply Nat2Z.inj. unfold m. rewrite batch_count_ceil by done.
      assert (0 < length (pairs request))%nat
        by (destruct (pairs request); [done | simpl; lia]).
      symmetry.
      apply Z.div_unique with (r := Z.of_nat (length (pairs request)) - 1);
        unfold b in *; lia. }
    simpl. unfold chunk. simpl. rewrite drop_0, take_ge by done.
    destruct (outcome (classify_batch cfg g (pairs request))) as [e|rs]; [done|].
    simpl. by rewrite app_nil_r. }
  split; [by apply chunks_cover|]. split; [done|]. split; [done|].
  intros Hrows Hitem.
  destruct (decide (pairs request = [])) as [Hnil|Hne].
  - apply Hone. rewrite Hnil. simpl. lia.
  - by apply (batch_boundary_invariance cfg g tok mdl).
Qed.

Lemma nli_concatenates_its_batches_witness :
  outcome (classify_nli default_config Padded.started (Toy.req (Toy.sample 40)))
  = match gather (map (fun k => outcome (classify_batch default_config Padded.started
                                           (chunk 16 (Toy.sample 40) k)))
                      (seq 0 3)) with
    | inl e => inl e
    | inr rs => inr {| results := rs |}
    end /\
  outcome (classify_nli default_config Toy.started (Toy.req (Toy.sample 40)))
  = match outcome (classify_batch default_config Toy.started (Toy.sample 40)) with
    | inl e => inl e
    | inr rs => inr {| results := rs |}
    end.
Proof.
  split.
  - destruct (nli_concatenates_its_batches default_config Padded.started tt
                {| weights := tt; on_cuda := false; eval_mode := true |}
                (Toy.req (Toy.sample 40)) eq_refl eq_refl eq_refl)
      as (_ & Hgather & _); [vm_compute; lia | exact Hgather].
  - destruct (nli_concatenates_its_batches default_config Toy.started tt
                {| weights := tt; on_cuda := false; eval_mode := true |}
                (Toy.req (Toy.sample 40)) eq_refl eq_refl eq_refl)
      as (_ & _ & _ & Hitemwise); [vm_compute; lia|].
    apply Hitemwise.
    + apply ToyFacts.toy_one_row_per_item.
    + apply ToyFacts.toy_itemwise.
Defined.

(** C5 as stated fails: the tokenizer pads each batch to its own longest
    item, and a network need not be blind to the padding.  With such a network,
    which returns one row of three probabilities per item, forty pairs sent as
    one request (batches of 16) do not get the results of the forty pairs
    classified as one batch: the ninth result is labelled from the 16 pairs of
    its batch in one case and from all forty in the other. *)
Lemma padding_breaks_batch_invariance :
  BATCH_SIZE default_config = 16 /\
  length (Toy.sample 40) = 40%nat /\
  one_row_per_item (H := Padded.backend) default_config tt
    {| weights := tt; on_cuda := false; eval_mode := true |} /\
  three_classes (H := Padded.backend) default_config tt
    {| weights := tt; on_cuda := false; eval_mode := true |} /\
  outcome (classify_nli default_config Padded.started (Toy.req (Toy.sample 40)))
  = inr {| results := Padded.split_answers |} /\
  outcome (classify_batch default_config Padded.started (Toy.sample 40))
  = inr Padded.whole_answers /\
  label <$> Padded.split_answers !! 8%nat = Some "contradiction" /\
  label <$> Padded.whole_answers !! 8%nat = Some "entailment" /\
  Padded.split_answers ≠ Padded.whole_answers.
Proof.
  split; [reflexivity|]. split; [reflexivity|].
  split; [apply PaddedFacts.padded_one_row_per_item|].
  split; [apply PaddedFacts.padded_three_classes|].
  split; [reflexivity|]. split; [reflexivity|].
  split; [reflexivity|]. split; [reflexivity|].
  intros Heq. apply (f_equal (fun l => label <$> l !! 8%nat)) in Heq.
  vm_compute in Heq. discriminate.
Qed.
